(** * holerite: payslip field extraction and page splitting (main.py)

    A shallow embedding of [main.py] and of the parts of the Python runtime
    it relies on ([str], [float], [re], [base64]), followed by the
    properties of the two request handlers [extract] and
    [extract_single_page].

    - A [str] is a list of code points and [bytes] a list of octets.
    - Code that may raise returns in the error monad [result]; [try] and
      [except] are [try_except] or a match on the result.
    - A [float] is an IEEE 754 binary64 value; [float(s)] rounds the
      decimal it reads to the nearest one and overflows to an infinity.
    - The PDF libraries (pypdf's [PdfReader] and [PdfWriter], pdfminer's
      [extract_text]) are collaborators outside the repository: they are
      an interface, [PdfBackend], that the handlers are parametrised by.
      A library operation answers or raises an exception of its library,
      which is never an [IndexError]. Building a [PdfReader] and reading
      its [pages] are two operations, each of which may raise.
    - A handler ends in the response object it builds or in the exception
      it raises. [JSONResponse] renders its body when it is built and
      raises where [json.dumps] or the UTF-8 encoder does; what the web
      framework does with a response or an exception afterwards is not
      part of the model. *)

From Stdlib.Strings Require Import String Ascii Byte.
From Stdlib Require Import List NArith ZArith Bool Lia SpecFloat.
Import ListNotations.

(* ================================================================== *)
(** * Python values: [str], [bytes], [float] *)
(* ================================================================== *)

Module Py.

(** A Python [str] is a sequence of Unicode code points, [bytes] a sequence
    of octets. *)
Definition codepoint := N.
Definition str := list codepoint.
Definition bytes := list byte.

(** The exceptions the program raises, catches or lets through. *)
Inductive exn : Type :=
| IndexError (msg : str)
| ValueError
| AttributeError
| UnicodeDecodeError
| UnicodeEncodeError
| PdfReadError                         (* pypdf could not read the document *)
| PdfWriteError                        (* pypdf could not serialise pages *)
| PDFSyntaxError                       (* pdfminer could not extract text *)
| RequestValidationError               (* FastAPI parameter validation *)
| HTTPException (status_code : Z) (detail : str).

(** Computations that return a value or raise. *)
Definition result (A : Type) : Type := (exn + A)%type.

Definition ret {A} (a : A) : result A := inr a.
Definition raise {A} (e : exn) : result A := inl e.
Definition bind {A B} (m : result A) (f : A -> result B) : result B :=
  match m with
  | inl e => inl e
  | inr a => f a
  end.
(** [try: m  except Exception as e: h e] *)
Definition try_except {A} (m : result A) (h : exn -> result A) : result A :=
  match m with
  | inl e => h e
  | inr a => inr a
  end.
(** a library call that either answers or raises its own exception [e] *)
Definition call {A} (e : exn) (o : option A) : result A :=
  match o with
  | Some a => inr a
  | None => inl e
  end.

(** ** UTF-8 *)

(** [bytes.decode("utf-8")], strict: [need] continuation octets are still
    expected for a scalar value that must be at least [lo]. *)
Fixpoint utf8_go (need : nat) (lo acc : N) (bs : bytes) : option str :=
  match bs with
  | [] => match need with O => Some [] | S _ => None end
  | b :: bs' =>
      let v := Byte.to_N b in
      match need with
      | O =>
          if (v <? 128)%N then option_map (cons v) (utf8_go 0 0 0 bs')
          else if (v <? 192)%N then None
          else if (v <? 224)%N then utf8_go 1 128 (v - 192) bs'
          else if (v <? 240)%N then utf8_go 2 2048 (v - 224) bs'
          else if (v <? 248)%N then utf8_go 3 65536 (v - 240) bs'
          else None
      | S n =>
          if ((128 <=? v) && (v <? 192))%N then
            let acc' := (acc * 64 + (v - 128))%N in
            match n with
            | O =>
                if ((lo <=? acc') && (acc' <=? 1114111)
                    && negb ((55296 <=? acc') && (acc' <=? 57343)))%N
                then option_map (cons acc') (utf8_go 0 0 0 bs')
                else None
            | S _ => utf8_go n lo acc' bs'
            end
          else None
      end
  end.

Definition decode_utf8 (bs : bytes) : result str :=
  call UnicodeDecodeError (utf8_go 0 0 0 bs).

(** A [str] literal of the source file (which is UTF-8 encoded). *)
Definition u (s : string) : str :=
  match utf8_go 0 0 0 (list_byte_of_string s) with
  | Some t => t
  | None => []
  end.

(** a one-character literal *)
Definition ch (s : string) : codepoint := hd 0%N (u s).

Definition LF : codepoint := 10%N.
Definition CR : codepoint := 13%N.

(** ** Character properties (Unicode 14, as in CPython 3.11) *)

(** [str.isspace] on one character, which is also the class [\s] of [re]
    and the set that [str.strip()] removes. *)
Definition isspace (c : codepoint) : bool :=
  (((9 <=? c) && (c <=? 13)) || ((28 <=? c) && (c <=? 32))
   || (c =? 133) || (c =? 160) || (c =? 5760)
   || ((8192 <=? c) && (c <=? 8202))
   || (c =? 8232) || (c =? 8233) || (c =? 8239) || (c =? 8287)
   || (c =? 12288))%N.

(** The code points of the digit zero of every decimal-digit script
    (general category Nd); each is followed by its digits one to nine. *)
Definition decimal_zeros : list codepoint :=
  [48; 1632; 1776; 1984; 2406; 2534; 2662; 2790; 2918; 3046; 3174; 3302;
   3430; 3558; 3664; 3792; 3872; 4160; 4240; 6112; 6160; 6470; 6608; 6784;
   6800; 6992; 7088; 7232; 7248; 42528; 43216; 43264; 43472; 43504; 43600;
   44016; 65296; 66720; 68912; 69734; 69872; 69942; 70096; 70384; 70736;
   70864; 71248; 71360; 71472; 71904; 72016; 72784; 73040; 73120; 92768;
   92864; 93008; 120782; 120792; 120802; 120812; 120822; 123200; 123632;
   125264; 130032]%N.

(** [Py_UNICODE_TODECIMAL]: the decimal value of a digit character. *)
Fixpoint todecimal_in (zs : list codepoint) (c : codepoint) : option N :=
  match zs with
  | [] => None
  | z :: zs' =>
      if ((z <=? c) && (c <? z + 10))%N then Some (c - z)%N
      else todecimal_in zs' c
  end.
Definition todecimal (c : codepoint) : option N := todecimal_in decimal_zeros c.

Definition isdecimal (c : codepoint) : bool :=
  match todecimal c with Some _ => true | None => false end.

(** ** [str] methods *)

(** [s.replace(old, new)] for a one-character [old]. *)
Definition replace (old : codepoint) (new : str) (s : str) : str :=
  flat_map (fun c => if (c =? old)%N then new else [c]) s.

Fixpoint lstrip (s : str) : str :=
  match s with
  | [] => []
  | c :: s' => if isspace c then lstrip s' else s
  end.

Fixpoint rstrip (s : str) : str :=
  match s with
  | [] => []
  | c :: s' =>
      match rstrip s' with
      | [] => if isspace c then [] else [c]
      | r => c :: r
      end
  end.

(** [s.strip()] *)
Definition strip (s : str) : str := rstrip (lstrip s).

(** [s.lower()], on Basic Latin and Latin-1 letters (other characters are
    left alone; none of them lowers to a string of Basic Latin letters
    other than k). *)
Definition lower_char (c : codepoint) : codepoint :=
  if (((65 <=? c) && (c <=? 90))
      || ((192 <=? c) && (c <=? 222) && negb (c =? 215)))%N
  then (c + 32)%N else c.
Definition lower (s : str) : str := map lower_char s.

Definition str_eqb (a b : str) : bool :=
  if list_eq_dec N.eq_dec a b then true else false.

(** ** [float] *)

(** A [float] is an IEEE 754 binary64 value: a signed zero, an infinity, a
    NaN, or [S754_finite neg m e] for (-1)^neg * m * 2^e. *)
Definition float : Type := spec_float.
Definition prec : Z := 53.
Definition emax : Z := 1024.

Definition Inf (neg : bool) : float := S754_infinity neg.
Definition NaN : float := S754_nan.

(** The float of the decimal (-1)^neg * m * 10^e, as [float] reads it from a
    string and as Python reads it from a literal: the binary64 value nearest
    to it, the one with an even mantissa where two are as near, and an
    infinity where that is out of range. A decimal with a negative exponent
    is the quotient of m by a power of ten, rounded once. *)
Definition float_of_decimal (neg : bool) (m : N) (e : Z) : float :=
  match m, e with
  | N0, _ => S754_zero neg
  | Npos p, Zneg k =>
      let '(q, e2, l) :=
        SFdiv_core_binary prec emax (Zpos p) 0 (Zpos (10 ^ k)) 0 in
      binary_round_aux prec emax neg q e2 l
  | Npos p, _ => binary_round prec emax neg (p * Z.to_pos (10 ^ e)) 0
  end.

(** [math.isfinite] *)
Definition isfinite (f : float) : bool :=
  match f with
  | S754_zero _ | S754_finite _ _ _ => true
  | S754_infinity _ | S754_nan => false
  end.

Definition is_ascii_digit (c : codepoint) : bool := ((48 <=? c) && (c <=? 57))%N.
(** C's [Py_ISSPACE] *)
Definition c_isspace (c : codepoint) : bool :=
  (((9 <=? c) && (c <=? 13)) || (c =? 32))%N.

(** [_PyUnicode_TransformDecimalAndSpaceToASCII]: outside ASCII, spaces become
    a blank, decimal digits their ASCII digit, and anything else a question
    mark that ends the string. *)
Fixpoint transform_nonascii (s : str) : str :=
  match s with
  | [] => []
  | c :: s' =>
      if (c <? 127)%N then c :: transform_nonascii s'
      else if isspace c then 32%N :: transform_nonascii s'
      else match todecimal c with
           | Some d => (48 + d)%N :: transform_nonascii s'
           | None => [63%N]
           end
  end.
Definition transform_decimal_and_space (s : str) : str :=
  if forallb (fun c => (c <? 128)%N) s then s else transform_nonascii s.

Fixpoint c_lstrip (s : str) : str :=
  match s with
  | [] => []
  | c :: s' => if c_isspace c then c_lstrip s' else s
  end.
Definition c_strip (s : str) : str := rev (c_lstrip (rev (c_lstrip s))).

(** [_Py_string_to_number_with_underscores]: an underscore is accepted only
    between two digits. *)
Fixpoint drop_underscores (prev : codepoint) (s : str) : option str :=
  match s with
  | [] => if (prev =? 95)%N then None else Some []
  | c :: s' =>
      if (c =? 95)%N then
        if is_ascii_digit prev then drop_underscores c s' else None
      else if (prev =? 95)%N && negb (is_ascii_digit c) then None
      else option_map (cons c) (drop_underscores c s')
  end.

(** a maximal run of ASCII digits: its digits read as a number, how many
    they are, and what follows *)
Fixpoint digits (acc : N) (n : nat) (s : str) : N * nat * str :=
  match s with
  | c :: s' =>
      if is_ascii_digit c then digits (acc * 10 + (c - 48))%N (S n) s'
      else (acc, n, s)
  | [] => (acc, n, [])
  end.

Definition ascii_lower (c : codepoint) : codepoint :=
  if ((65 <=? c) && (c <=? 90))%N then (c + 32)%N else c.

Definition take_sign (s : str) : bool * str :=
  match s with
  | 43%N :: s' => (false, s')
  | 45%N :: s' => (true, s')
  | _ => (false, s)
  end.

(** [PyOS_string_to_double] on the whole of [s]: an optional sign, then
    either inf, infinity or nan in any case, or digits with an optional
    fraction and exponent; nothing may follow. *)
Definition string_to_double (s : str) : option float :=
  let '(neg, rest) := take_sign s in
  let low := map ascii_lower rest in
  if str_eqb low (u "inf") || str_eqb low (u "infinity") then Some (Inf neg)
  else if str_eqb low (u "nan") then Some NaN
  else
    let '(ip, ni, r1) := digits 0 0 rest in
    let '(m, nf, r2) :=
      match r1 with
      | 46%N :: r1' => digits ip 0 r1'
      | _ => (ip, O, r1)
      end in
    match ni, nf with
    | O, O => None
    | _, _ =>
        match r2 with
        | [] => Some (float_of_decimal neg m (- Z.of_nat nf))
        | c :: r3 =>
            if (c =? 101)%N || (c =? 69)%N then
              let '(eneg, r4) := take_sign r3 in
              match digits 0 0 r4 with
              | (_, O, _) => None
              | (e, S _, []) =>
                  let e' := if eneg then (- Z.of_N e)%Z else Z.of_N e in
                  Some (float_of_decimal neg m (e' - Z.of_nat nf))
              | (_, S _, _ :: _) => None
              end
            else None
        end
    end.

(** [float(s)] for a [str] argument. *)
Definition float_of_str (s : str) : result float :=
  let t := c_strip (transform_decimal_and_space s) in
  let t' := if existsb (N.eqb 95) t then drop_underscores 0%N t else Some t in
  match t' with
  | Some d => call ValueError (string_to_double d)
  | None => raise ValueError
  end.

End Py.

Export Py.

Notation "x <- m ;; k" := (bind m (fun x => k))
  (at level 61, m at next level, right associativity).

(* ================================================================== *)
(** * The [re] module: backtracking search with one capturing group *)
(* ================================================================== *)

Module Re.

Inductive category : Type :=
| CATEGORY_DIGIT                       (* \d *)
| CATEGORY_SPACE.                      (* \s *)

Inductive set_item : Type :=
| SLiteral (c : codepoint)
| SCategory (cat : category).

(** What consumes exactly one character. *)
Inductive atom : Type :=
| LITERAL (c : codepoint)
| CATEGORY (cat : category)
| IN (items : list set_item)           (* [...] *)
| NOT_IN (items : list set_item).      (* [^...] *)

(** The patterns of [main.py] repeat single characters only; [MAX_REPEAT]
    is the greedy repetition, without an upper bound when [hi] is [None]. *)
Inductive pattern : Type :=
| EMPTY
| ATOM (a : atom)
| SEQ (p q : pattern)
| BRANCH (p q : pattern)               (* p|q *)
| MAX_REPEAT (lo : nat) (hi : option nat) (a : atom)
| SUBPATTERN (p : pattern).            (* (p), the capturing group 1 *)

(** A compiled pattern with its flags. *)
Record Pattern : Type := compile { ast : pattern; IGNORECASE : bool }.

(** Case folding as [re.I] applies it to a pattern character of Basic Latin
    or Latin-1: the lower-case letter, with the characters that Unicode folds
    onto such a letter. *)
Definition fold_case (c : codepoint) : codepoint :=
  (if ((65 <=? c) && (c <=? 90))
      || ((192 <=? c) && (c <=? 222) && negb (c =? 215)) then c + 32
   else if (c =? 304) || (c =? 305) then 105      (* dotted I, dotless i *)
   else if (c =? 383) then 115                    (* long s *)
   else if (c =? 8490) then 107                   (* Kelvin sign *)
   else if (c =? 8491) then 229                   (* Angstrom sign *)
   else if (c =? 924) || (c =? 956) then 181      (* Greek mu *)
   else if (c =? 7838) then 223                   (* capital sharp s *)
   else if (c =? 376) then 255                    (* Y with diaeresis *)
   else c)%N.

Definition literal_matches (ic : bool) (p c : codepoint) : bool :=
  if ic then (fold_case p =? fold_case c)%N else (p =? c)%N.

Definition category_matches (cat : category) (c : codepoint) : bool :=
  match cat with
  | CATEGORY_DIGIT => isdecimal c
  | CATEGORY_SPACE => isspace c
  end.

Definition item_matches (ic : bool) (c : codepoint) (it : set_item) : bool :=
  match it with
  | SLiteral p => literal_matches ic p c
  | SCategory cat => category_matches cat c
  end.

Definition atom_matches (ic : bool) (a : atom) (c : codepoint) : bool :=
  match a with
  | LITERAL p => literal_matches ic p c
  | CATEGORY cat => category_matches cat c
  | IN items => existsb (item_matches ic c) items
  | NOT_IN items => negb (existsb (item_matches ic c) items)
  end.

Definition below (hi : option nat) : bool :=
  match hi with Some O => false | _ => true end.
Definition decr (hi : option nat) : option nat := option_map pred hi.

Section Matching.

Context {R : Type}.

(** Greedy repetition of a one-character test: take as many characters as
    allowed, and give one back each time the rest of the pattern fails. The
    continuation [k] gets the characters taken and the text that is left. *)
Fixpoint repeat_greedy (ok : codepoint -> bool) (lo : nat) (hi : option nat)
         (s : str) (k : str -> str -> option R) : option R :=
  let stop := match lo with O => k [] s | S _ => None end in
  match s with
  | [] => stop
  | c :: s' =>
      if ok c && below hi then
        match repeat_greedy ok (pred lo) (decr hi) s'
                            (fun taken rest => k (c :: taken) rest) with
        | Some r => Some r
        | None => stop
        end
      else stop
  end.

(** [exec ic p s g k] matches [p] at the head of [s]; [g] is what group 1
    holds so far, and [k] is the rest of the match, run on the characters
    [p] has taken, the text that is left and group 1. The first way to match
    that [k] accepts wins. *)
Fixpoint exec (ic : bool) (p : pattern) (s : str) (g : option str)
         (k : str -> str -> option str -> option R) : option R :=
  match p with
  | EMPTY => k [] s g
  | ATOM a =>
      match s with
      | c :: s' => if atom_matches ic a c then k [c] s' g else None
      | [] => None
      end
  | SEQ p1 p2 =>
      exec ic p1 s g
           (fun t1 s1 g1 => exec ic p2 s1 g1 (fun t2 s2 g2 => k (t1 ++ t2) s2 g2))
  | BRANCH p1 p2 =>
      match exec ic p1 s g k with
      | Some r => Some r
      | None => exec ic p2 s g k
      end
  | MAX_REPEAT lo hi a =>
      repeat_greedy (atom_matches ic a) lo hi s (fun t s' => k t s' g)
  | SUBPATTERN p1 => exec ic p1 s g (fun t s' _ => k t s' (Some t))
  end.

End Matching.

(** A match object: where the match is, and group 1 if it took part. *)
Record Match : Type := mkMatch { m_start : nat; m_end : nat; group1 : option str }.

Definition match_at (re : Pattern) (pos : nat) (s : str) : option Match :=
  exec (IGNORECASE re) (ast re) s None
       (fun t _ g => Some (mkMatch pos (pos + length t) g)).

(** [re.search] from position [pos], where [s] is the text from there on:
    the match at the leftmost position that has one. *)
Fixpoint search_from (re : Pattern) (pos : nat) (s : str) : option Match :=
  match match_at re pos s with
  | Some m => Some m
  | None =>
      match s with
      | [] => None
      | _ :: s' => search_from re (S pos) s'
      end
  end.

Definition search (re : Pattern) (text : str) : option Match :=
  search_from re 0 text.

(** writing patterns *)
Definition lit (s : string) : pattern :=
  fold_right (fun c p => SEQ (ATOM (LITERAL c)) p) EMPTY (u s).
Definition star (a : atom) : pattern := MAX_REPEAT 0 None a.
Definition plus (a : atom) : pattern := MAX_REPEAT 1 None a.
Definition opt (a : atom) : pattern := MAX_REPEAT 0 (Some 1) a.
Fixpoint seq_of (ps : list pattern) : pattern :=
  match ps with
  | [] => EMPTY
  | p :: ps' => SEQ p (seq_of ps')
  end.

End Re.

(* ================================================================== *)
(** * [base64.b64encode] *)
(* ================================================================== *)

Module Base64.

Definition alphabet : str :=
  u "ABCDEFGHIJKLMNOPQRSTUVWXYZabcdefghijklmnopqrstuvwxyz0123456789+/".

Definition sextet (n : N) : byte :=
  match Byte.of_N (nth (N.to_nat (n mod 64)) alphabet 61%N) with
  | Some b => b
  | None => x3d
  end.

Definition pad : byte := x3d.          (* = *)

Fixpoint b64encode (bs : bytes) : bytes :=
  match bs with
  | [] => []
  | [a] =>
      let n := (Byte.to_N a * 65536)%N in
      [sextet (n / 262144); sextet (n / 4096); pad; pad]
  | [a; b] =>
      let n := (Byte.to_N a * 65536 + Byte.to_N b * 256)%N in
      [sextet (n / 262144); sextet (n / 4096); sextet (n / 64); pad]
  | a :: b :: c :: rest =>
      let n := (Byte.to_N a * 65536 + Byte.to_N b * 256 + Byte.to_N c)%N in
      sextet (n / 262144) :: sextet (n / 4096) :: sextet (n / 64) :: sextet n
      :: b64encode rest
  end.

End Base64.

(* ================================================================== *)
(** * The PDF libraries *)
(* ================================================================== *)

(** A [PdfReader] object as far as [main.py] looks at it: [reader.pages],
    the pages that [len] counts and indexing returns, or [None] where
    reading them raises. *)
Record Reader (page : Type) : Type := mkReader {
  pages : option (list page)
}.
Arguments mkReader {page} _.
Arguments pages {page} _.

(** What [main.py] asks of pypdf and pdfminer, over the pages of a document.
    Each operation is a function of its arguments and answers [None] where
    the library raises ([PdfReadError], [PdfWriteError] and [PDFSyntaxError]
    stand for whatever the library raises there). *)
Class PdfBackend (page : Type) : Type := {
  (** [PdfReader(io.BytesIO(data))] *)
  PdfReader : bytes -> option (Reader page);
  (** [w = PdfWriter(); w.add_page(p) ...; w.write(out); out.getvalue()] *)
  PdfWriter_write : list page -> option bytes;
  (** [extract_text(io.BytesIO(data), page_numbers=ns)] *)
  extract_text : bytes -> list nat -> option str
}.

(* ================================================================== *)
(** * main.py *)
(* ================================================================== *)

Import Re.

(** [re.compile(r"CPF:\s*([\d.\-]+)", re.I)] *)
Definition cpf_re : Pattern :=
  compile
    (seq_of [lit "CPF:";
             star (CATEGORY CATEGORY_SPACE);
             SUBPATTERN (plus (IN [SCategory CATEGORY_DIGIT;
                                   SLiteral (ch "."); SLiteral (ch "-")]))])
    true.

(** [re.compile(r"Nome do (?:Colaborador|Funcion[aá]rio)\s*\n?([^\n\r]+)", re.I)] *)
Definition nome_re : Pattern :=
  compile
    (seq_of [lit "Nome do ";
             BRANCH (lit "Colaborador")
                    (seq_of [lit "Funcion";
                             ATOM (IN [SLiteral (ch "a"); SLiteral (ch "á")]);
                             lit "rio"]);
             star (CATEGORY CATEGORY_SPACE);
             opt (LITERAL LF);
             SUBPATTERN (plus (NOT_IN [SLiteral LF; SLiteral CR]))])
    true.

(** [re.compile(r"SAL[ÁA]RIO L[ÍI]QUIDO\s*R\$\s*([\d.\,]+)", re.I)] *)
Definition liq_re : Pattern :=
  compile
    (seq_of [lit "SAL";
             ATOM (IN [SLiteral (ch "Á"); SLiteral (ch "A")]);
             lit "RIO L";
             ATOM (IN [SLiteral (ch "Í"); SLiteral (ch "I")]);
             lit "QUIDO";
             star (CATEGORY CATEGORY_SPACE);
             lit "R$";
             star (CATEGORY CATEGORY_SPACE);
             SUBPATTERN (plus (IN [SCategory CATEGORY_DIGIT;
                                   SLiteral (ch "."); SLiteral (ch ",")]))])
    true.

Definition to_number_br (s : option str) : option float :=
  match s with
  | None => None                                   (* if not s: return None *)
  | Some [] => None
  | Some s =>
      let s := replace (ch ".") [] s in
      let s := replace (ch ",") (u ".") s in
      match float_of_str s with                    (* try: return float(s) *)
      | inr f => Some f
      | inl _ => None                              (* except Exception *)
      end
  end.

(** [re_.search(text).group(1).strip() if re_.search(text) else empty], the
    expression [extract_fields_from_text] evaluates for each of its patterns;
    [.strip()] on a group that took no part raises. *)
Definition group1_stripped (re_ : Pattern) (text : str) : result str :=
  match search re_ text with
  | Some m =>
      match group1 m with
      | Some g => ret (strip g)
      | None => raise AttributeError
      end
  | None => ret []
  end.

Record Fields : Type := mkFields {
  f_nome : str;
  f_cpf : str;
  f_valor_liquido : option float
}.

Definition extract_fields_from_text (text : str) : result Fields :=
  nome <- group1_stripped nome_re text ;;
  cpf <- group1_stripped cpf_re text ;;
  liq <- group1_stripped liq_re text ;;
  let valor_liquido := to_number_br (Some liq) in
  ret (mkFields nome cpf valor_liquido).

Definition _is_pdf_content_type (ct : option str) : bool :=
  match ct with
  | None => true
  | Some [] => true
  | Some ct =>
      let ct := lower ct in
      str_eqb ct (u "application/pdf")
      || str_eqb ct (u "application/octet-stream")
  end.

(** An uploaded file: its declared content type and what [file.read()]
    returns. *)
Record UploadFile : Type := mkUpload {
  content_type : option str;
  read : bytes
}.

(** One item of the JSON list [extract] answers with. *)
Record PageResult : Type := mkPageResult {
  page : Z;
  nome : str;
  cpf : str;
  valor_liquido : option float;
  page_pdf_base64 : str
}.

(** The response objects the handlers return: a JSON response whose body
    is the rendering of [content], and a streaming response. *)
Inductive Response : Type :=
| JSON (content : list PageResult)
| StreamingResponse (body : bytes) (media_type : str).

(** What [json.dumps(..., allow_nan=False)] accepts of an item: its float,
    if it has one, is neither an infinity nor a NaN. *)
Definition json_compliant (r : PageResult) : bool :=
  match valor_liquido r with
  | Some f => isfinite f
  | None => true
  end.

(** What [.encode("utf-8")] accepts of an item rendered with
    [ensure_ascii=False]: its strings hold no surrogate code point. *)
Definition is_surrogate (c : codepoint) : bool :=
  ((55296 <=? c) && (c <=? 57343))%N.
Definition utf8_encodable (r : PageResult) : bool :=
  negb (existsb is_surrogate (nome r ++ cpf r ++ page_pdf_base64 r)).

(** [JSONResponse(content)]: the constructor renders the body at once, as
    [json.dumps(content, ensure_ascii=False, allow_nan=False, ...)
    .encode("utf-8")]. [json.dumps] raises [ValueError] on a float that is
    out of range, and the encoder [UnicodeEncodeError] on a surrogate. *)
Definition JSONResponse (content : list PageResult) : result Response :=
  if negb (forallb json_compliant content) then raise ValueError
  else if negb (forallb utf8_encodable content) then raise UnicodeEncodeError
  else ret (JSON content).

Section Handlers.

Context {Page : Type} {backend : PdfBackend Page}.

(** [reader.pages] is read for the second operand of [or] only (a negative
    index is refused before the pages are looked at), and once more for
    [reader.pages[page_index]]. *)
Definition page_to_pdf_bytes (pdf_bytes : bytes) (page_index : Z) : result bytes :=
  reader <- call PdfReadError (PdfReader pdf_bytes) ;;
  invalid <- (if (page_index <? 0)%Z then ret true
              else
                reader_pages <- call PdfReadError (pages reader) ;;
                ret (page_index >=? Z.of_nat (length reader_pages))%Z) ;;
  if (invalid : bool) then
    raise (IndexError (u "Página inválida"))
  else
    reader_pages <- call PdfReadError (pages reader) ;;
    p <- call (IndexError (u "sequence index out of range"))
              (nth_error reader_pages (Z.to_nat page_index)) ;;
    let writer := [] ++ [p] in
    call PdfWriteError (PdfWriter_write writer).

(** The loop [for i in range(num_pages)] of [extract], on the indices still
    to do and the [results] appended so far. Both [try] blocks of its body
    replace any exception by the empty string; [extract_fields_from_text] is
    called outside of them. *)
Fixpoint extract_loop (data : bytes) (indices : list nat)
         (results : list PageResult) : result (list PageResult) :=
  match indices with
  | [] => ret results
  | i :: rest =>
      let page_text :=
        match call PDFSyntaxError (extract_text data [i]) with
        | inr t => match t with [] => [] | _ => t end      (* t or empty *)
        | inl _ => []
        end in
      fields <- extract_fields_from_text page_text ;;
      let page_pdf_b64 :=
        match (page_pdf <- page_to_pdf_bytes data (Z.of_nat i) ;;
               decode_utf8 (Base64.b64encode page_pdf)) with
        | inr s => s
        | inl _ => []
        end in
      extract_loop data rest
        (results ++ [mkPageResult (Z.of_nat i + 1) (f_nome fields)
                       (f_cpf fields) (f_valor_liquido fields) page_pdf_b64])
  end.

Definition all_empty (r : PageResult) : bool :=
  match nome r, cpf r, valor_liquido r with
  | [], [], None => true
  | _, _, _ => false
  end.

(** POST /extract. Only the construction of the reader stands in the
    [try] block: [len(reader.pages)] is evaluated after it, and what it
    raises is not caught. *)
Definition extract (file : UploadFile) : result Response :=
  if negb (_is_pdf_content_type (content_type file)) then
    raise (HTTPException 400 (u "Envie um PDF."))
  else
    let data := read file in
    reader <- try_except (call PdfReadError (PdfReader data))
                (fun _ => raise (HTTPException 400 (u "PDF inválido."))) ;;
    reader_pages <- call PdfReadError (pages reader) ;;
    let num_pages := length reader_pages in
    results <- extract_loop data (seq 0 num_pages) [] ;;
    if forallb all_empty results then
      raise (HTTPException 422 (u "Não foi possível extrair os campos."))
    else JSONResponse results.

(** POST /extract/page, with [index] declared [Query(..., ge=1)] *)
Definition extract_single_page (index : Z) (file : UploadFile) : result Response :=
  if (index <? 1)%Z then raise RequestValidationError
  else if negb (_is_pdf_content_type (content_type file)) then
    raise (HTTPException 400 (u "Envie um PDF."))
  else
    let data := read file in
    page_pdf <- try_except (page_to_pdf_bytes data (index - 1))
                  (fun e =>
                     match e with
                     | IndexError _ =>
                         raise (HTTPException 404 (u "Página não encontrada."))
                     | _ => raise (HTTPException 400 (u "Falha ao processar PDF."))
                     end) ;;
    ret (StreamingResponse page_pdf (u "application/pdf")).

End Handlers.

(** ** Views of the handlers used to state their properties *)

(** The three searches of [extract_fields_from_text], one at a time. *)
Definition capture (re_ : Pattern) (text : str) : option str :=
  match search re_ text with
  | Some m => group1 m
  | None => None
  end.

Definition stripped_or_empty (o : option str) : str :=
  match o with
  | Some g => strip g
  | None => []
  end.

(** Whether every match of the pattern goes through its capturing group. *)
Fixpoint sets_group (p : pattern) : bool :=
  match p with
  | SUBPATTERN _ => true
  | SEQ p1 p2 => sets_group p1 || sets_group p2
  | BRANCH p1 p2 => sets_group p1 && sets_group p2
  | _ => false
  end.

(** The atom every match of the pattern has to start with, if there is one. *)
Fixpoint first_atom (p : pattern) : option atom :=
  match p with
  | ATOM a => Some a
  | SEQ p1 _ => first_atom p1
  | _ => None
  end.

(** A match found at position 0, seen from position [pos]. *)
Definition at_pos (pos : nat) (m : Match) : Match :=
  mkMatch pos (pos + m_end m) (group1 m).

(** A match object of the text with every character mapped by [f]. *)
Definition map_match (f : codepoint -> codepoint) (m : Match) : Match :=
  mkMatch (m_start m) (m_end m) (option_map (map f) (group1 m)).

(** [str.upper] on Basic Latin and Latin-1 letters that have their capital
    in Latin-1. *)
Definition upper_char (c : codepoint) : codepoint :=
  if (((97 <=? c) && (c <=? 122))
      || ((224 <=? c) && (c <=? 254) && negb (c =? 247)))%N
  then (c - 32)%N else c.

Definition upper (s : str) : str := map upper_char s.

Definition is_ascii (b : byte) : Prop := (Byte.to_N b < 128)%N.

(** What [extract_fields_from_text] returns, search by search. *)
Definition fields_of (text : str) : Fields :=
  mkFields (stripped_or_empty (capture nome_re text))
           (stripped_or_empty (capture cpf_re text))
           (to_number_br (Some (stripped_or_empty (capture liq_re text)))).

(** A page result without any field, and one with some field. *)
Definition no_fields (r : PageResult) : Prop :=
  nome r = [] /\ cpf r = [] /\ valor_liquido r = None.
Definition some_field (r : PageResult) : Prop :=
  nome r <> [] \/ cpf r <> [] \/ valor_liquido r <> None.

Section Views.

Context {Page : Type} {backend : PdfBackend Page}.

(** The text the loop of [extract] works on for page [i]. *)
Definition page_text_of (data : bytes) (i : nat) : str :=
  match extract_text data [i] with
  | Some t => t
  | None => []
  end.

(** The base64 text the loop of [extract] stores for page [i]. *)
Definition page_b64_of (data : bytes) (i : nat) : str :=
  match page_to_pdf_bytes data (Z.of_nat i) with
  | inr page_pdf => map Byte.to_N (Base64.b64encode page_pdf)
  | inl _ => []
  end.

(** The entry of the report for page [i], and the report of [n] pages. *)
Definition page_result (data : bytes) (i : nat) : PageResult :=
  let fields := fields_of (page_text_of data i) in
  mkPageResult (Z.of_nat i + 1) (f_nome fields) (f_cpf fields)
               (f_valor_liquido fields) (page_b64_of data i).

Definition report (data : bytes) (n : nat) : list PageResult :=
  map (page_result data) (seq 0 n).

End Views.

(** A property of every character of a given text, character by character. *)
Ltac forall_chars :=
  match goal with
  | |- Forall ?P ?l =>
      let l' := eval vm_compute in l in
      change (Forall P l');
      repeat (apply Forall_cons; [vm_compute; reflexivity|]);
      apply Forall_nil
  end.

(** Closes one direction of one outcome of a handler, given the case it is
    in. *)
Ltac outcome :=
  repeat match goal with
         | H : _ /\ _ |- _ => destruct H
         | H : exists _, _ |- _ => destruct H
         | H : _ \/ _ |- _ => destruct H
         end;
  try match goal with
      | H : @inl _ _ _ = @inl _ _ _ |- _ =>
          first [ solve [vm_compute in H; discriminate] | injection H as H ]
      | H : @inr _ _ _ = @inr _ _ _ |- _ => injection H as H
      | H : @inl _ _ _ = @inr _ _ _ |- _ => discriminate H
      | H : @inr _ _ _ = @inl _ _ _ |- _ => discriminate H
      end;
  repeat match goal with
         | H1 : PdfReader ?d = Some ?a, H2 : PdfReader ?d = Some ?b |- _ =>
             rewrite H1 in H2; injection H2 as H2; subst
         | H : Some _ = Some _ |- _ => injection H as H; subst
         end;
  repeat match goal with
         | H : nth_error ?l ?n = Some _ |- _ =>
             lazymatch goal with
             | _ : (n < length l)%nat |- _ => fail
             | _ => assert (n < length l)%nat by (apply nth_error_Some; congruence)
             end
         end;
  subst;
  first [ congruence | lia | contradiction | solve [simpl; auto 8]
        | solve [repeat split; eauto 9; try lia; try congruence]
        | solve [repeat eexists; eassumption] ].

(** Case analysis on comparisons of code points. *)
Ltac ntest :=
  repeat (match goal with
          | |- context [N.leb ?a ?b] => destruct (N.leb_spec a b)
          | |- context [N.ltb ?a ?b] => destruct (N.ltb_spec a b)
          | |- context [N.eqb ?a ?b] => destruct (N.eqb_spec a b)
          end; try (exfalso; lia));
  simpl; try reflexivity; try lia.

(** [w] stands in [text], as a run of consecutive characters. *)
Definition substring (w text : str) : Prop := exists a b, text = a ++ w ++ b.

(** Every capturing group of the pattern is one or more repetitions of the
    atom [a]. *)
Fixpoint groups_repeat (a : atom) (p : pattern) : Prop :=
  match p with
  | SUBPATTERN (MAX_REPEAT (S _) _ b) => b = a
  | SUBPATTERN _ => False
  | SEQ p1 p2 | BRANCH p1 p2 => groups_repeat a p1 /\ groups_repeat a p2
  | _ => True
  end.

(** What group 1 may hold when every group repeats [a]: nothing, or a
    non-empty text of characters that [a] matches. *)
Definition group_of (ic : bool) (a : atom) (g : option str) : Prop :=
  match g with
  | None => True
  | Some t => t <> [] /\ Forall (fun c => atom_matches ic a c = true) t
  end.

(** Group 1 is unchanged or a part of the text the pattern has taken. *)
Definition group_within (g g' : option str) (taken : str) : Prop :=
  g' = g \/ exists w, g' = Some w /\ substring w taken.

(** The texts a pattern matches: [denotes ic p t g g'] when [p] can take
    exactly the text [t], leaving [g'] in group 1 where [g] was. *)
Fixpoint denotes (ic : bool) (p : pattern) (t : str) (g g' : option str) : Prop :=
  match p with
  | EMPTY => t = [] /\ g' = g
  | ATOM a => (exists c, t = [c] /\ atom_matches ic a c = true) /\ g' = g
  | SEQ p1 p2 =>
      exists t1 t2 g1,
        t = t1 ++ t2 /\ denotes ic p1 t1 g g1 /\ denotes ic p2 t2 g1 g'
  | BRANCH p1 p2 => denotes ic p1 t g g' \/ denotes ic p2 t g g'
  | MAX_REPEAT lo hi a =>
      Forall (fun c => atom_matches ic a c = true) t
      /\ (lo <= length t)%nat
      /\ match hi with Some h => (length t <= h)%nat | None => True end
      /\ g' = g
  | SUBPATTERN p1 => (exists g1, denotes ic p1 t g g1) /\ g' = Some t
  end.

(** A text made of white space. *)
Definition blank (s : str) : Prop := Forall (fun c => isspace c = true) s.

(** A text with its letter case folded as [re.I] folds it. *)
Definition folded (s : str) : str := map fold_case s.

(** The character classes of the captures of [cpf_re] and [liq_re]. *)
Definition cpf_char (c : codepoint) : bool :=
  isdecimal c || (c =? ch ".")%N || (c =? ch "-")%N.
Definition liq_char (c : codepoint) : bool :=
  isdecimal c || (c =? ch ".")%N || (c =? ch ",")%N.

(** What is left of a number once [to_number_br] has normalised a capture of
    [liq_re], and once [float] has brought it to ASCII: digits and full
    stops. *)
Definition decimal_or_dot (c : codepoint) : bool := isdecimal c || (c =? 46)%N.
Definition digit_or_dot (c : codepoint) : bool := is_ascii_digit c || (c =? 46)%N.

(** The two rewritings of [to_number_br], character by character. *)
Definition not_dot (c : codepoint) : bool := negb (c =? ch ".")%N.
Definition comma_to_dot (c : codepoint) : codepoint :=
  if (c =? ch ",")%N then ch "." else c.

(** Decimal digits (each below ten) written in ASCII, and the number they
    denote. *)
Definition digits_text (ds : list N) : str := map (fun d => (48 + d)%N) ds.
Definition number_of (ds : list N) : N :=
  fold_left (fun acc d => (acc * 10 + d)%N) ds 0%N.

(** A float that is not below zero: plus zero, a positive number or plus
    infinity. *)
Definition unsigned (f : float) : Prop :=
  f = S754_zero false
  \/ (exists m e, f = S754_finite false m e)
  \/ f = S754_infinity false.

(** The error of the content-type gate of both handlers. *)
Definition NotAPdf : exn := HTTPException 400 (u "Envie um PDF.").

(** A backend with another text extractor. *)
Definition with_extract_text {Page} (backend : PdfBackend Page)
           (text : bytes -> list nat -> option str) : PdfBackend Page :=
  {| PdfReader := @PdfReader Page backend;
     PdfWriter_write := @PdfWriter_write Page backend;
     extract_text := text |}.

(** The conditions of the specification, as the handlers signal them. *)
Definition InvalidDocument : exn := HTTPException 400 (u "PDF inválido.").
Definition EmptyExtraction : exn :=
  HTTPException 422 (u "Não foi possível extrair os campos.").
Definition PageOutOfRange : exn := IndexError (u "Página inválida").
Definition PageNotFound : exn := HTTPException 404 (u "Página não encontrada.").
Definition ProcessingFailed : exn := HTTPException 400 (u "Falha ao processar PDF.").

(** The single-page flow in the words of the specification: the page
    splitter at the index one below the page number, its failures surfaced
    as not found (out of range) or as a client error (anything else). *)
Definition processSinglePage_spec {Page} {backend : PdfBackend Page}
           (document : bytes) (pageNumber : Z) : result Response :=
  match page_to_pdf_bytes document (pageNumber - 1) with
  | inr b => inr (StreamingResponse b (u "application/pdf"))
  | inl (IndexError _) => inl PageNotFound
  | inl _ => inl ProcessingFailed
  end.

(* ================================================================== *)
(** * A reference backend *)
(* ================================================================== *)

(** A toy document format on which the handlers can be run: a percent sign
    followed by one octet per page. The octet selects the text of the page;
    the octet [xfd] stands for a page tree that cannot be read. *)
Module Mock.

Definition mock_page := byte.

Definition reader (data : bytes) : option (Reader mock_page) :=
  match data with
  | x25 :: ps =>
      Some (mkReader (if existsb (Byte.eqb xfd) ps then None else Some ps))
  | _ => None
  end.

Definition text_of_page (p : mock_page) : option str :=
  match p with
  | x01 => Some (u "Nome do Colaborador" ++ LF :: u "JOÃO DA SILVA")
  | x02 => Some (u "CPF: 123.456.789-00")
  | x03 => Some (u "SALÁRIO LÍQUIDO R$ 1.234,56")
  (* a net value of 309 digits *)
  | x04 => Some (u "SALÁRIO LÍQUIDO R$ " ++ repeat (ch "9") 309)
  (* a name that is one high surrogate *)
  | x05 => Some (u "Nome do Colaborador" ++ [LF; 55357%N])
  | xfe => None                         (* the text layer cannot be read *)
  | _ => Some []
  end.

Definition text (data : bytes) (ns : list nat) : option str :=
  match reader data with
  | Some r =>
      match pages r, ns with
      | Some ps, [i] =>
          match nth_error ps i with
          | Some p => text_of_page p
          | None => Some []
          end
      | Some _, _ => Some []
      | None, _ => None
      end
  | None => None
  end.

Definition writer (ps : list mock_page) : option bytes := Some (x25 :: ps).

(** a writer that cannot serialise the page [xff] *)
Definition faulty_writer (ps : list mock_page) : option bytes :=
  if existsb (Byte.eqb xff) ps then None else Some (x25 :: ps).

Definition backend : PdfBackend mock_page :=
  {| PdfReader := reader; PdfWriter_write := writer; extract_text := text |}.

Definition faulty : PdfBackend mock_page :=
  {| PdfReader := reader; PdfWriter_write := faulty_writer; extract_text := text |}.

Definition upload (data : bytes) : UploadFile := mkUpload None data.

(** three pages: a name, a tax id, a net value *)
Definition doc3 : bytes := [x25; x01; x02; x03].
(** four pages: no label, an unreadable text layer, a tax id, and a page
    the faulty writer cannot serialise *)
Definition doc_degraded : bytes := [x25; x00; xfe; x02; xff].
(** two pages without any label *)
Definition doc_blank : bytes := [x25; x00; x00].
(** no page at all *)
Definition doc_empty : bytes := [x25].
(** not a document *)
Definition garbage : bytes := [x00; x01].
(** a document whose pages cannot be read *)
Definition doc_broken : bytes := [x25; x01; xfd].
(** one page, with a net value too large for a float *)
Definition doc_overflow : bytes := [x25; x04].
(** one page, with a name that UTF-8 cannot encode *)
Definition doc_surrogate : bytes := [x25; x05].

End Mock.

(* ================================================================== *)
(** * Facts about the Python values *)
(* ================================================================== *)

Section StrFacts.

Lemma lstrip_head (s : str) :
  match lstrip s with
  | [] => True
  | c :: _ => isspace c = false
  end.
Proof.
  induction s as [|c s IH]; simpl; [exact I|].
  destruct (isspace c) eqn:E; [exact IH | exact E].
Qed.

Lemma lstrip_fixed (c : codepoint) (s : str) :
  isspace c = false -> lstrip (c :: s) = c :: s.
Proof. intros E; simpl; now rewrite E. Qed.

Lemma rstrip_idem (s : str) : rstrip (rstrip s) = rstrip s.
Proof.
  induction s as [|c s IH]; simpl; [reflexivity|].
  destruct (rstrip s) as [|d r] eqn:E.
  - destruct (isspace c) eqn:Ec; simpl; [reflexivity | now rewrite Ec].
  - simpl in IH |- *. now rewrite IH.
Qed.

Lemma rstrip_keeps_head (c : codepoint) (s : str) :
  isspace c = false -> exists r, rstrip (c :: s) = c :: r.
Proof.
  intros E; simpl. destruct (rstrip s) as [|d r].
  - rewrite E. now exists [].
  - now exists (d :: r).
Qed.

Lemma strip_idem (s : str) : strip (strip s) = strip s.
Proof.
  unfold strip.
  pose proof (lstrip_head s) as H.
  destruct (lstrip s) as [|c l]; [reflexivity|].
  destruct (rstrip_keeps_head c l H) as [r Hr].
  rewrite Hr, (lstrip_fixed c r H), <- Hr.
  apply rstrip_idem.
Qed.

(** Removing a character with [replace] is a filter, and replacing it by one
    character is a map. *)
Lemma replace_remove (old : codepoint) (s : str) :
  replace old [] s = filter (fun c => negb (c =? old)%N) s.
Proof.
  induction s as [|c s IH]; simpl; [reflexivity|].
  fold (replace old [] s). rewrite IH.
  now destruct (c =? old)%N.
Qed.

Lemma replace_one (old new : codepoint) (s : str) :
  replace old [new] s = map (fun c => if (c =? old)%N then new else c) s.
Proof.
  induction s as [|c s IH]; simpl; [reflexivity|].
  fold (replace old [new] s). rewrite IH.
  now destruct (c =? old)%N.
Qed.

End StrFacts.

(** Base64 text is ASCII, so decoding it cannot fail. *)
Section Base64Facts.

Lemma sextet_table :
  forallb (fun k => (Byte.to_N (Base64.sextet (N.of_nat k)) <? 128)%N) (seq 0 64)
  = true.
Proof. vm_compute. reflexivity. Qed.

Lemma sextet_ascii (n : N) : is_ascii (Base64.sextet n).
Proof.
  assert (Hm : (n mod 64 < 64)%N) by (apply N.mod_lt; discriminate).
  assert (E : Base64.sextet n = Base64.sextet (N.of_nat (N.to_nat (n mod 64)))).
  { unfold Base64.sextet. rewrite N2Nat.id, N.Div0.mod_mod. reflexivity. }
  rewrite E.
  pose proof sextet_table as T. rewrite forallb_forall in T.
  apply N.ltb_lt, T, in_seq.
  generalize dependent (n mod 64)%N. intros m Hm _. lia.
Qed.

Lemma pad_ascii : is_ascii Base64.pad.
Proof. reflexivity. Qed.

Lemma b64encode_ascii (bs : bytes) : Forall is_ascii (Base64.b64encode bs).
Proof.
  remember (length bs) as n eqn:Hn. revert bs Hn.
  induction n as [n IH] using lt_wf_ind. intros bs Hn.
  destruct bs as [|a [|b [|c rest]]]; simpl.
  - constructor.
  - repeat constructor; auto using sextet_ascii, pad_ascii.
  - repeat constructor; auto using sextet_ascii, pad_ascii.
  - repeat (constructor; [apply sextet_ascii|]).
    apply (IH (length rest)); [simpl in Hn; lia | reflexivity].
Qed.

Lemma utf8_go_ascii (bs : bytes) :
  Forall is_ascii bs -> utf8_go 0 0 0 bs = Some (map Byte.to_N bs).
Proof.
  induction 1 as [|b bs Hb _ IH]; simpl; [reflexivity|].
  unfold is_ascii in Hb. apply N.ltb_lt in Hb. now rewrite Hb, IH.
Qed.

Lemma decode_b64encode (bs : bytes) :
  decode_utf8 (Base64.b64encode bs) = inr (map Byte.to_N (Base64.b64encode bs)).
Proof.
  unfold decode_utf8. now rewrite (utf8_go_ascii _ (b64encode_ascii bs)).
Qed.

Lemma b64encode_nil_iff (bs : bytes) : Base64.b64encode bs = [] <-> bs = [].
Proof.
  split; [|intros ->; reflexivity].
  destruct bs as [|a [|b [|c rest]]]; simpl; [reflexivity|discriminate..].
Qed.

End Base64Facts.

(* ================================================================== *)
(** * Facts about the matcher *)
(* ================================================================== *)

Section MatcherFacts.

Context {R : Type}.

(** Whatever a match returns was returned by its continuation, run on a
    split of the text. *)
Lemma repeat_greedy_cont (ok : codepoint -> bool) (s : str) :
  forall lo hi (k : str -> str -> option R) r,
    repeat_greedy ok lo hi s k = Some r ->
    exists t s', k t s' = Some r /\ s = t ++ s'.
Proof.
  induction s as [|c s IH]; intros lo hi k r; simpl.
  - destruct lo; [|discriminate]. intros H. exists [], []. auto.
  - assert (Hstop : match lo with O => k [] (c :: s) | S _ => None end = Some r ->
                    exists t s', k t s' = Some r /\ c :: s = t ++ s').
    { destruct lo; [|discriminate]. intros H. exists [], (c :: s). auto. }
    destruct (ok c && below hi); [|exact Hstop].
    destruct (repeat_greedy ok (pred lo) (decr hi) s
                            (fun taken rest => k (c :: taken) rest)) eqn:E;
      [|exact Hstop].
    intros [= <-]. apply IH in E. destruct E as (t & s' & H & ->).
    exists (c :: t), s'. auto.
Qed.

(** ... and once the capturing group is passed, with group 1 set. *)
Lemma exec_cont (ic : bool) (p : pattern) :
  forall s g (k : str -> str -> option str -> option R) r,
    exec ic p s g k = Some r ->
    exists t s' g', k t s' g' = Some r
                    /\ s = t ++ s'
                    /\ (sets_group p = true \/ g <> None -> g' <> None).
Proof.
  induction p as [|a|p1 IH1 p2 IH2|p1 IH1 p2 IH2|lo hi a|p1 IH1];
    intros s g k r; simpl.
  - intros H. exists [], s, g. repeat split; [exact H|].
    intros [E|E]; [discriminate|exact E].
  - destruct s as [|c s]; [discriminate|].
    destruct (atom_matches ic a c); [|discriminate].
    intros H. exists [c], s, g. repeat split; [exact H|].
    intros [E|E]; [discriminate|exact E].
  - intros H. apply IH1 in H. destruct H as (t1 & s1 & g1 & H & -> & G1).
    apply IH2 in H. destruct H as (t2 & s2 & g2 & H & -> & G2).
    exists (t1 ++ t2), s2, g2. repeat split; [exact H|apply app_assoc|].
    intros [E|E]; [apply orb_true_iff in E; destruct E|]; auto.
  - destruct (exec ic p1 s g k) eqn:E.
    + intros [= <-]. apply IH1 in E. destruct E as (t1 & s1 & g1 & H & -> & G1).
      exists t1, s1, g1. repeat split; [exact H|].
      intros [E|E]; [apply andb_true_iff in E; destruct E|]; auto.
    + intros H. apply IH2 in H. destruct H as (t2 & s2 & g2 & H & -> & G2).
      exists t2, s2, g2. repeat split; [exact H|].
      intros [E'|E']; [apply andb_true_iff in E'; destruct E'|]; auto.
  - intros H. apply repeat_greedy_cont in H. destruct H as (t & s' & H & ->).
    exists t, s', g. repeat split; [exact H|].
    intros [E|E]; [discriminate|exact E].
  - intros H. apply IH1 in H. destruct H as (t1 & s1 & g1 & H & -> & _).
    exists t1, s1, (Some t1). repeat split; [exact H|]. intros _. discriminate.
Qed.

(** A pattern cannot match where its first atom does not. *)
Lemma exec_first_atom (ic : bool) (p : pattern) (a : atom) :
  first_atom p = Some a ->
  forall s g (k : str -> str -> option str -> option R),
    match s with
    | [] => True
    | c :: _ => atom_matches ic a c = false
    end ->
    exec ic p s g k = None.
Proof.
  induction p as [|b|p1 IH1 p2 IH2|p1 IH1 p2 IH2|lo hi b|p1 IH1];
    simpl; try discriminate.
  - intros [= ->] [|c s] g k H; [reflexivity|]. now rewrite H.
  - intros Ha s g k H. apply IH1; assumption.
Qed.

End MatcherFacts.

Section Continuations.

Context {R R' : Type}.
Variable F : R -> R'.

(** What is done to the result of the continuation is done to the result of
    the match. *)
Lemma repeat_greedy_post (ok : codepoint -> bool) (s : str) :
  forall lo hi (k : str -> str -> option R) (k' : str -> str -> option R'),
    (forall t s', k' t s' = option_map F (k t s')) ->
    repeat_greedy ok lo hi s k' = option_map F (repeat_greedy ok lo hi s k).
Proof.
  induction s as [|c s IH]; intros lo hi k k' Hk; simpl.
  - destruct lo; [apply Hk|reflexivity].
  - assert (Hstop : match lo with O => k' [] (c :: s) | S _ => None end
                    = option_map F (match lo with O => k [] (c :: s) | S _ => None end)).
    { destruct lo; [apply Hk|reflexivity]. }
    destruct (ok c && below hi); [|exact Hstop].
    rewrite (IH (pred lo) (decr hi) (fun taken rest => k (c :: taken) rest)
                (fun taken rest => k' (c :: taken) rest))
      by (intros t s'; apply Hk).
    destruct (repeat_greedy ok (pred lo) (decr hi) s
                            (fun taken rest => k (c :: taken) rest));
      [reflexivity|exact Hstop].
Qed.

Lemma exec_post (ic : bool) (p : pattern) :
  forall s g (k : str -> str -> option str -> option R)
         (k' : str -> str -> option str -> option R'),
    (forall t s' g', k' t s' g' = option_map F (k t s' g')) ->
    exec ic p s g k' = option_map F (exec ic p s g k).
Proof.
  induction p as [|a|p1 IH1 p2 IH2|p1 IH1 p2 IH2|lo hi a|p1 IH1];
    intros s g k k' Hk; simpl.
  - apply Hk.
  - destruct s as [|c s]; [reflexivity|].
    destruct (atom_matches ic a c); [apply Hk|reflexivity].
  - apply IH1. intros t1 s1 g1. apply IH2. intros t2 s2 g2. apply Hk.
  - rewrite (IH1 s g k k' Hk), (IH2 s g k k' Hk).
    destruct (exec ic p1 s g k); reflexivity.
  - apply repeat_greedy_post. intros t s'. apply Hk.
  - apply (IH1 s g (fun t s' _ => k t s' (Some t))). intros t s' g'. apply Hk.
Qed.

End Continuations.

Section SearchFacts.

Variable re_ : Pattern.

Lemma match_at_start (pos : nat) (s : str) (m : Match) :
  match_at re_ pos s = Some m -> m_start m = pos.
Proof.
  unfold match_at. intros H. apply exec_cont in H.
  destruct H as (t & s' & g' & [= <-] & _). reflexivity.
Qed.

Lemma match_at_group (pos : nat) (s : str) (m : Match) :
  sets_group (ast re_) = true ->
  match_at re_ pos s = Some m -> group1 m <> None.
Proof.
  unfold match_at. intros G H. apply exec_cont in H.
  destruct H as (t & s' & g' & [= <-] & _ & K). simpl. auto.
Qed.

(** [search] answers with the match at the leftmost position that has one,
    and with nothing only if no position has. *)
Lemma search_from_some (s : str) :
  forall pos m,
    search_from re_ pos s = Some m ->
    exists n, (n <= length s)%nat
              /\ match_at re_ (pos + n) (skipn n s) = Some m
              /\ forall j, (j < n)%nat -> match_at re_ (pos + j) (skipn j s) = None.
Proof.
  induction s as [|c s IH]; intros pos m; simpl.
  - destruct (match_at re_ pos []) eqn:E; [|discriminate].
    intros [= <-]. exists 0%nat. rewrite Nat.add_0_r. simpl.
    repeat split; auto. intros j Hj. lia.
  - destruct (match_at re_ pos (c :: s)) eqn:E.
    + intros [= <-]. exists 0%nat. rewrite Nat.add_0_r. simpl.
      repeat split; [lia|exact E|]. intros j Hj. lia.
    + intros H. apply IH in H. destruct H as (n & Hn & Hm & Hlt).
      exists (S n). simpl. rewrite Nat.add_succ_r. repeat split; [lia|exact Hm|].
      intros [|j] Hj; simpl.
      * now rewrite Nat.add_0_r.
      * rewrite Nat.add_succ_r. apply Hlt. lia.
Qed.

Lemma search_from_none (s : str) :
  forall pos,
    search_from re_ pos s = None ->
    forall j, (j <= length s)%nat -> match_at re_ (pos + j) (skipn j s) = None.
Proof.
  induction s as [|c s IH]; intros pos; simpl.
  - destruct (match_at re_ pos []) eqn:E; [discriminate|].
    intros _ j Hj. assert (j = 0)%nat as -> by lia. now rewrite Nat.add_0_r.
  - destruct (match_at re_ pos (c :: s)) eqn:E; [discriminate|].
    intros H [|j] Hj; simpl.
    + now rewrite Nat.add_0_r.
    + rewrite Nat.add_succ_r. apply (IH (S pos) H). lia.
Qed.

Lemma search_leftmost (text : str) (m : Match) :
  search re_ text = Some m ->
  (m_start m <= length text)%nat
  /\ match_at re_ (m_start m) (skipn (m_start m) text) = Some m
  /\ forall j, (j < m_start m)%nat -> match_at re_ j (skipn j text) = None.
Proof.
  unfold search. intros H. apply search_from_some in H.
  destruct H as (n & Hn & Hm & Hlt). simpl in Hm, Hlt.
  rewrite (match_at_start _ _ _ Hm). auto.
Qed.

Lemma search_none (text : str) :
  search re_ text = None ->
  forall j, (j <= length text)%nat -> match_at re_ j (skipn j text) = None.
Proof. unfold search. intros H j Hj. exact (search_from_none _ _ H j Hj). Qed.

Lemma search_group (text : str) (m : Match) :
  sets_group (ast re_) = true ->
  search re_ text = Some m -> group1 m <> None.
Proof.
  intros G H. apply search_leftmost in H. destruct H as (_ & H & _).
  exact (match_at_group _ _ _ G H).
Qed.

Lemma search_from_hit (pos : nat) (s : str) (m : Match) :
  match_at re_ pos s = Some m -> search_from re_ pos s = Some m.
Proof. intros H. destruct s; simpl; now rewrite H. Qed.

(** Matching does not depend on where in the text it takes place. *)
Lemma match_at_pos (pos : nat) (s : str) :
  match_at re_ pos s = option_map (at_pos pos) (match_at re_ 0 s).
Proof.
  unfold match_at. apply exec_post. intros t s' g'. reflexivity.
Qed.

Lemma search_from_group_pos (s : str) :
  forall pos,
    option_map group1 (search_from re_ pos s)
    = option_map group1 (search_from re_ 0 s).
Proof.
  induction s as [|c s IH]; intros pos; simpl.
  - rewrite (match_at_pos pos). destruct (match_at re_ 0 []); reflexivity.
  - rewrite (match_at_pos pos).
    destruct (match_at re_ 0 (c :: s)); simpl; [reflexivity|].
    now rewrite (IH (S pos)), (IH 1%nat).
Qed.

(** Text in which the pattern cannot even start is skipped. *)
Lemma search_from_skip (a : atom) (before s : str) :
  first_atom (ast re_) = Some a ->
  Forall (fun c => atom_matches (IGNORECASE re_) a c = false) before ->
  forall pos,
    search_from re_ pos (before ++ s) = search_from re_ (pos + length before) s.
Proof.
  intros Ha. induction 1 as [|c before Hc _ IH]; intros pos; simpl.
  - now rewrite Nat.add_0_r.
  - unfold match_at at 1.
    rewrite (exec_first_atom (IGNORECASE re_) (ast re_) a Ha) by exact Hc.
    rewrite IH. f_equal. lia.
Qed.

End SearchFacts.

(** ** Letter case *)

(** A mapping of characters that [re.I] and the character classes cannot
    tell from the identity leaves every search as it is, up to the mapping
    of the text and of the capture. *)
Section CaseMap.

Variable f : codepoint -> codepoint.
Hypothesis f_fold : forall c, fold_case (f c) = fold_case c.
Hypothesis f_space : forall c, isspace (f c) = isspace c.
Hypothesis f_decimal : forall c, isdecimal (f c) = isdecimal c.

Lemma item_matches_map (c : codepoint) (it : set_item) :
  item_matches true (f c) it = item_matches true c it.
Proof.
  destruct it as [p|[|]]; simpl; unfold literal_matches;
    now rewrite ?f_fold, ?f_space, ?f_decimal.
Qed.

Lemma existsb_items_map (c : codepoint) (items : list set_item) :
  existsb (item_matches true (f c)) items = existsb (item_matches true c) items.
Proof.
  induction items as [|it items IH]; simpl; [reflexivity|].
  now rewrite item_matches_map, IH.
Qed.

Lemma atom_matches_map (a : atom) (c : codepoint) :
  atom_matches true a (f c) = atom_matches true a c.
Proof.
  destruct a as [p|[|]|items|items]; simpl; unfold literal_matches;
    now rewrite ?f_fold, ?f_space, ?f_decimal, ?existsb_items_map.
Qed.

Context {R R' : Type}.
Variable F : R -> R'.

Lemma repeat_greedy_map (a : atom) (s : str) :
  forall lo hi (k : str -> str -> option R) (k' : str -> str -> option R'),
    (forall t s', k' (map f t) (map f s') = option_map F (k t s')) ->
    repeat_greedy (atom_matches true a) lo hi (map f s) k'
    = option_map F (repeat_greedy (atom_matches true a) lo hi s k).
Proof.
  induction s as [|c s IH]; intros lo hi k k' Hk; simpl.
  - destruct lo; [apply (Hk [] [])|reflexivity].
  - rewrite atom_matches_map.
    assert (Hstop : match lo with O => k' [] (f c :: map f s) | S _ => None end
                    = option_map F (match lo with O => k [] (c :: s) | S _ => None end)).
    { destruct lo; [apply (Hk [] (c :: s))|reflexivity]. }
    destruct (atom_matches true a c && below hi); [|exact Hstop].
    rewrite (IH (pred lo) (decr hi) (fun taken rest => k (c :: taken) rest)
                (fun taken rest => k' (f c :: taken) rest)).
    + destruct (repeat_greedy (atom_matches true a) (pred lo) (decr hi) s
                              (fun taken rest => k (c :: taken) rest));
        [reflexivity|exact Hstop].
    + intros t s'. apply (Hk (c :: t) s').
Qed.

Lemma exec_map (p : pattern) :
  forall s g (k : str -> str -> option str -> option R)
         (k' : str -> str -> option str -> option R'),
    (forall t s' g',
        k' (map f t) (map f s') (option_map (map f) g') = option_map F (k t s' g')) ->
    exec true p (map f s) (option_map (map f) g) k'
    = option_map F (exec true p s g k).
Proof.
  induction p as [|a|p1 IH1 p2 IH2|p1 IH1 p2 IH2|lo hi a|p1 IH1];
    intros s g k k' Hk; simpl.
  - apply (Hk [] s g).
  - destruct s as [|c s]; simpl; [reflexivity|].
    rewrite atom_matches_map.
    destruct (atom_matches true a c); [apply (Hk [c] s g)|reflexivity].
  - apply IH1. intros t1 s1 g1. apply IH2. intros t2 s2 g2.
    rewrite <- map_app. apply Hk.
  - rewrite (IH1 s g k k' Hk), (IH2 s g k k' Hk).
    destruct (exec true p1 s g k); reflexivity.
  - apply repeat_greedy_map. intros t s'. apply Hk.
  - apply (IH1 s g (fun t s' _ => k t s' (Some t))).
    intros t s' g'. apply (Hk t s' (Some t)).
Qed.

End CaseMap.

Section CaseMapSearch.

Variable f : codepoint -> codepoint.
Hypothesis f_fold : forall c, fold_case (f c) = fold_case c.
Hypothesis f_space : forall c, isspace (f c) = isspace c.
Hypothesis f_decimal : forall c, isdecimal (f c) = isdecimal c.

Variable re_ : Pattern.
Hypothesis re_ignorecase : IGNORECASE re_ = true.

Lemma match_at_map (pos : nat) (s : str) :
  match_at re_ pos (map f s) = option_map (map_match f) (match_at re_ pos s).
Proof.
  unfold match_at. rewrite re_ignorecase.
  apply (exec_map f f_fold f_space f_decimal (map_match f) (ast re_) s None).
  intros t s' g'. rewrite length_map. reflexivity.
Qed.

Lemma search_from_map (s : str) :
  forall pos,
    search_from re_ pos (map f s) = option_map (map_match f) (search_from re_ pos s).
Proof.
  induction s as [|c s IH]; intros pos; simpl.
  - change (@nil codepoint) with (map f []) at 1. rewrite match_at_map.
    destruct (match_at re_ pos []); reflexivity.
  - change (f c :: map f s) with (map f (c :: s)). rewrite match_at_map.
    destruct (match_at re_ pos (c :: s)); [reflexivity|apply IH].
Qed.

Lemma search_map (text : str) :
  search re_ (map f text) = option_map (map_match f) (search re_ text).
Proof. apply search_from_map. Qed.

Lemma lstrip_map (s : str) : lstrip (map f s) = map f (lstrip s).
Proof.
  induction s as [|c s IH]; simpl; [reflexivity|].
  rewrite f_space. destruct (isspace c); [exact IH|reflexivity].
Qed.

Lemma rstrip_map (s : str) : rstrip (map f s) = map f (rstrip s).
Proof.
  induction s as [|c s IH]; simpl; [reflexivity|].
  rewrite IH, f_space.
  destruct (rstrip s); simpl; [destruct (isspace c)|]; reflexivity.
Qed.

Lemma strip_map (s : str) : strip (map f s) = map f (strip s).
Proof. unfold strip. now rewrite lstrip_map, rstrip_map. Qed.

End CaseMapSearch.

Section LetterCase.

Lemma todecimal_in_none (zs : list codepoint) (c : codepoint) :
  Forall (fun z => (c < z \/ z + 10 <= c)%N) zs -> todecimal_in zs c = None.
Proof.
  induction 1 as [|z zs Hz _ IH]; simpl; [reflexivity|].
  rewrite IH. destruct Hz; ntest.
Qed.

Lemma isdecimal_latin (c : codepoint) :
  (58 <= c < 1632)%N -> isdecimal c = false.
Proof.
  intros H. unfold isdecimal, todecimal.
  rewrite todecimal_in_none; [reflexivity|].
  unfold decimal_zeros. repeat (apply Forall_cons; [lia|]). apply Forall_nil.
Qed.

Lemma isspace_latin_letter (c : codepoint) :
  (65 <= c <= 122 \/ 192 <= c <= 254)%N -> isspace c = false.
Proof. intros H. unfold isspace. destruct H; ntest. Qed.

Lemma lower_char_cases (c : codepoint) :
  lower_char c = c
  \/ (lower_char c = c + 32 /\ (65 <= c <= 90 \/ 192 <= c <= 222 /\ c <> 215))%N.
Proof. unfold lower_char. ntest; right; lia. Qed.

Lemma upper_char_cases (c : codepoint) :
  upper_char c = c
  \/ (upper_char c = c - 32 /\ (97 <= c <= 122 \/ 224 <= c <= 254 /\ c <> 247))%N.
Proof. unfold upper_char. ntest; right; lia. Qed.

Lemma fold_case_lower (c : codepoint) : fold_case (lower_char c) = fold_case c.
Proof.
  destruct (lower_char_cases c) as [->|[-> H]]; [reflexivity|].
  unfold fold_case. destruct H as [H|[H H']]; ntest.
Qed.

Lemma fold_case_upper (c : codepoint) : fold_case (upper_char c) = fold_case c.
Proof.
  destruct (upper_char_cases c) as [->|[-> H]]; [reflexivity|].
  unfold fold_case. destruct H as [H|[H H']]; ntest.
Qed.

Lemma isspace_lower (c : codepoint) : isspace (lower_char c) = isspace c.
Proof.
  destruct (lower_char_cases c) as [->|[-> H]]; [reflexivity|].
  rewrite !isspace_latin_letter; [reflexivity|lia..].
Qed.

Lemma isspace_upper (c : codepoint) : isspace (upper_char c) = isspace c.
Proof.
  destruct (upper_char_cases c) as [->|[-> H]]; [reflexivity|].
  rewrite !isspace_latin_letter; [reflexivity|lia..].
Qed.

Lemma isdecimal_lower (c : codepoint) : isdecimal (lower_char c) = isdecimal c.
Proof.
  destruct (lower_char_cases c) as [->|[-> H]]; [reflexivity|].
  rewrite !isdecimal_latin; [reflexivity|lia..].
Qed.

Lemma isdecimal_upper (c : codepoint) : isdecimal (upper_char c) = isdecimal c.
Proof.
  destruct (upper_char_cases c) as [->|[-> H]]; [reflexivity|].
  rewrite !isdecimal_latin; [reflexivity|lia..].
Qed.

Lemma capture_lower (re_ : Pattern) (text : str) :
  IGNORECASE re_ = true ->
  capture re_ (lower text) = option_map lower (capture re_ text).
Proof.
  intros H. unfold capture, lower.
  rewrite (search_map lower_char fold_case_lower isspace_lower isdecimal_lower re_ H).
  destruct (search re_ text); reflexivity.
Qed.

Lemma capture_upper (re_ : Pattern) (text : str) :
  IGNORECASE re_ = true ->
  capture re_ (upper text) = option_map upper (capture re_ text).
Proof.
  intros H. unfold capture, upper.
  rewrite (search_map upper_char fold_case_upper isspace_upper isdecimal_upper re_ H).
  destruct (search re_ text); reflexivity.
Qed.

End LetterCase.

(* ================================================================== *)
(** * The field extractor *)
(* ================================================================== *)

Section FieldExtractor.

Lemma group1_stripped_eq (re_ : Pattern) (text : str) :
  sets_group (ast re_) = true ->
  group1_stripped re_ text = inr (stripped_or_empty (capture re_ text)).
Proof.
  intros G. unfold group1_stripped, capture.
  destruct (search re_ text) as [m|] eqn:E; [|reflexivity].
  pose proof (search_group re_ text m G E) as Hg.
  destruct (group1 m); [reflexivity|contradiction].
Qed.

(** No search of [extract_fields_from_text] can raise: the group it reads
    takes part in every match of its pattern. *)
Lemma extract_fields_from_text_eq (text : str) :
  extract_fields_from_text text = inr (fields_of text).
Proof.
  unfold extract_fields_from_text, fields_of.
  rewrite !group1_stripped_eq by reflexivity. reflexivity.
Qed.

Lemma stripped_or_empty_trimmed (o : option str) :
  strip (stripped_or_empty o) = stripped_or_empty o.
Proof. destruct o; simpl; [apply strip_idem|reflexivity]. Qed.

Lemma capture_skip (re_ : Pattern) (a : atom) (before s : str) :
  first_atom (ast re_) = Some a ->
  Forall (fun c => atom_matches (IGNORECASE re_) a c = false) before ->
  capture re_ (before ++ s) = capture re_ s.
Proof.
  intros Ha Hb.
  assert (E : forall text,
             capture re_ text
             = match option_map group1 (search_from re_ 0 text) with
               | Some g => g
               | None => None
               end).
  { intros text. unfold capture, search.
    destruct (search_from re_ 0 text); reflexivity. }
  rewrite !E, (search_from_skip re_ a before s Ha Hb 0), search_from_group_pos.
  reflexivity.
Qed.

End FieldExtractor.

(* ================================================================== *)
(** * The handlers *)
(* ================================================================== *)

Section HandlerFacts.

Context {Page : Type} {backend : PdfBackend Page}.

Lemma page_to_pdf_bytes_unparsable (data : bytes) (i : Z) :
  PdfReader data = None -> page_to_pdf_bytes data i = inl PdfReadError.
Proof. intros H. unfold page_to_pdf_bytes. now rewrite H. Qed.

Lemma page_to_pdf_bytes_unreadable (data : bytes) (i : Z) :
  PdfReader data = Some (mkReader None) ->
  (0 <= i)%Z ->
  page_to_pdf_bytes data i = inl PdfReadError.
Proof.
  intros H Hi. unfold page_to_pdf_bytes. rewrite H. simpl.
  destruct (Z.ltb_spec i 0); [lia|reflexivity].
Qed.

Lemma page_to_pdf_bytes_negative (data : bytes) (r : Reader Page) (i : Z) :
  PdfReader data = Some r ->
  (i < 0)%Z ->
  page_to_pdf_bytes data i = inl PageOutOfRange.
Proof.
  intros H Hi. unfold page_to_pdf_bytes. rewrite H. simpl.
  destruct (Z.ltb_spec i 0); [reflexivity|lia].
Qed.

Lemma page_to_pdf_bytes_out_of_range (data : bytes) (pages : list Page) (i : Z) :
  PdfReader data = Some (mkReader (Some pages)) ->
  (i < 0 \/ Z.of_nat (length pages) <= i)%Z ->
  page_to_pdf_bytes data i = inl PageOutOfRange.
Proof.
  intros H Hi. unfold page_to_pdf_bytes. rewrite H. simpl.
  destruct (Z.ltb_spec i 0); simpl; [reflexivity|].
  destruct (Z.geb_spec i (Z.of_nat (length pages))); [reflexivity|lia].
Qed.

Lemma page_to_pdf_bytes_in_range (data : bytes) (pages : list Page) (i : Z) :
  PdfReader data = Some (mkReader (Some pages)) ->
  (0 <= i < Z.of_nat (length pages))%Z ->
  exists p, nth_error pages (Z.to_nat i) = Some p
            /\ page_to_pdf_bytes data i = call PdfWriteError (PdfWriter_write [p]).
Proof.
  intros H Hi. unfold page_to_pdf_bytes. rewrite H. simpl.
  destruct (Z.ltb_spec i 0); [lia|]. simpl.
  destruct (Z.geb_spec i (Z.of_nat (length pages))); [lia|]. simpl.
  destruct (nth_error pages (Z.to_nat i)) as [p|] eqn:E.
  - exists p. split; reflexivity.
  - apply nth_error_None in E. lia.
Qed.

Lemma extract_loop_eq (data : bytes) (indices : list nat) :
  forall results,
    extract_loop data indices results
    = inr (results ++ map (page_result data) indices).
Proof.
  induction indices as [|i rest IH]; intros results; simpl.
  - now rewrite app_nil_r.
  - rewrite extract_fields_from_text_eq. simpl.
    rewrite IH, <- app_assoc. simpl.
    do 3 f_equal. unfold page_result, page_text_of, page_b64_of.
    f_equal.
    + destruct (extract_text data [i]) as [[|c t]|]; reflexivity.
    + destruct (extract_text data [i]) as [[|c t]|]; reflexivity.
    + destruct (extract_text data [i]) as [[|c t]|]; reflexivity.
    + destruct (page_to_pdf_bytes data (Z.of_nat i)) as [e|b]; simpl;
        [reflexivity|now rewrite decode_b64encode].
Qed.

Lemma report_length (data : bytes) (n : nat) : length (report data n) = n.
Proof. unfold report. now rewrite length_map, length_seq. Qed.

Lemma report_nth (data : bytes) (n i : nat) :
  (i < n)%nat -> nth_error (report data n) i = Some (page_result data i).
Proof.
  intros H. unfold report.
  rewrite nth_error_map, nth_error_seq.
  destruct (Nat.ltb_spec i n); [reflexivity|lia].
Qed.

Lemma report_pages (data : bytes) (n : nat) :
  map page (report data n) = map Z.of_nat (seq 1 n).
Proof.
  unfold report. rewrite map_map, <- seq_shift, map_map.
  apply map_ext. intros i. simpl. lia.
Qed.

Lemma all_empty_iff (r : PageResult) : all_empty r = true <-> no_fields r.
Proof.
  unfold all_empty, no_fields.
  destruct (nome r), (cpf r), (valor_liquido r); split;
    try discriminate; try reflexivity; intuition discriminate.
Qed.

Lemma not_all_empty_iff (r : PageResult) : all_empty r = false <-> some_field r.
Proof.
  unfold all_empty, some_field.
  destruct (nome r), (cpf r), (valor_liquido r); split;
    try discriminate; try reflexivity; intros; try (intuition congruence);
    try (left; discriminate); try (right; left; discriminate);
    try (right; right; discriminate).
Qed.

(** [extract], outcome by outcome. *)
Lemma extract_eq (file : UploadFile) :
  extract file =
  if negb (_is_pdf_content_type (content_type file)) then
    inl (HTTPException 400 (u "Envie um PDF."))
  else
    match PdfReader (read file) with
    | None => inl InvalidDocument
    | Some (mkReader None) => inl PdfReadError
    | Some (mkReader (Some ps)) =>
        let results := report (read file) (length ps) in
        if forallb all_empty results then inl EmptyExtraction
        else JSONResponse results
    end.
Proof.
  unfold extract.
  destruct (negb (_is_pdf_content_type (content_type file))); [reflexivity|].
  destruct (PdfReader (read file)) as [[[ps|]]|]; simpl; [|reflexivity..].
  rewrite extract_loop_eq. simpl. reflexivity.
Qed.

(** [JSONResponse] answers with its content or raises. *)
Lemma JSONResponse_inr (content : list PageResult) (response : Response) :
  JSONResponse content = inr response ->
  response = JSON content
  /\ forallb json_compliant content = true
  /\ forallb utf8_encodable content = true.
Proof.
  unfold JSONResponse.
  destruct (forallb json_compliant content); simpl; [|discriminate].
  destruct (forallb utf8_encodable content); simpl; [|discriminate].
  intros [= <-]. auto.
Qed.

(** A report that [extract] answers with. *)
Lemma extract_inr (file : UploadFile) (results : list PageResult) :
  extract file = inr (JSON results) ->
  _is_pdf_content_type (content_type file) = true
  /\ exists ps,
       PdfReader (read file) = Some (mkReader (Some ps))
       /\ results = report (read file) (length ps)
       /\ forallb all_empty results = false.
Proof.
  rewrite extract_eq.
  destruct (_is_pdf_content_type (content_type file)); simpl; [|discriminate].
  destruct (PdfReader (read file)) as [[[ps|]]|]; try discriminate.
  destruct (forallb all_empty (report (read file) (length ps))) eqn:E;
    [discriminate|].
  intros H. apply JSONResponse_inr in H. destruct H as ([= ->] & _).
  split; [reflexivity|]. exists ps. auto.
Qed.

End HandlerFacts.

(* ================================================================== *)
(** * The numeric normaliser and the field extractor *)
(* ================================================================== *)

(** C6: [to_number_br] answers [None] for [None] and for the empty string;
    for any other string it drops every full stop, turns every comma into a
    full stop and reads the result with [float], answering [None] where
    [float] raises; it never raises itself. It reads 2.987,32 as the float
    2987.32 (the float Python reads from that literal), and abc as [None]. *)
Theorem to_number_br_normalises :
  to_number_br None = None
  /\ to_number_br (Some []) = None
  /\ (forall c s,
         to_number_br (Some (c :: s))
         = match float_of_str
                   (map (fun x => if (x =? ch ",")%N then ch "." else x)
                        (filter (fun x => negb (x =? ch ".")%N) (c :: s))) with
           | inr f => Some f
           | inl _ => None
           end)
  /\ to_number_br (Some (u "2.987,32")) = Some (float_of_decimal false 298732 (-2))
  /\ float_of_str (u "2987.32") = inr (float_of_decimal false 298732 (-2))
  /\ to_number_br (Some (u "abc")) = None.
Proof.
  split; [reflexivity|].
  split; [reflexivity|].
  split.
  { intros c s. unfold to_number_br.
    change (u ".") with [ch "."].
    now rewrite replace_remove, replace_one. }
  split; [vm_compute; reflexivity|].
  split; vm_compute; reflexivity.
Qed.


(** C7: [extract_fields_from_text] never raises and fills each field from a
    search of its own: a field whose pattern has no match is empty (absent
    for the net value) whatever the others find, and a matched one is the
    capture stripped of surrounding white space (read by [to_number_br] for
    the net value), so the name and the tax id come out trimmed. Each search
    finds the leftmost match and ignores letter case. The name, tax id and
    net value of the sample texts are read as expected, also when the sample
    stands on a line of a longer text, and a text without labels gives the
    defaults. *)
Theorem extract_fields_from_text_searches :
  (forall text, extract_fields_from_text text = inr (fields_of text))
  /\ (forall text, capture nome_re text = None -> f_nome (fields_of text) = [])
  /\ (forall text, capture cpf_re text = None -> f_cpf (fields_of text) = [])
  /\ (forall text,
         capture liq_re text = None -> f_valor_liquido (fields_of text) = None)
  /\ (forall text g,
         capture nome_re text = Some g -> f_nome (fields_of text) = strip g)
  /\ (forall text g,
         capture cpf_re text = Some g -> f_cpf (fields_of text) = strip g)
  /\ (forall text g,
         capture liq_re text = Some g ->
         f_valor_liquido (fields_of text) = to_number_br (Some (strip g)))
  /\ (forall text,
         strip (f_nome (fields_of text)) = f_nome (fields_of text)
         /\ strip (f_cpf (fields_of text)) = f_cpf (fields_of text))
  /\ (forall re_ text m,
         search re_ text = Some m ->
         (m_start m <= length text)%nat
         /\ match_at re_ (m_start m) (skipn (m_start m) text) = Some m
         /\ forall j, (j < m_start m)%nat -> match_at re_ j (skipn j text) = None)
  /\ (forall re_ text,
         In re_ [nome_re; cpf_re; liq_re] ->
         capture re_ (lower text) = option_map lower (capture re_ text)
         /\ capture re_ (upper text) = option_map upper (capture re_ text))
  /\ extract_fields_from_text (u "Nome do Colaborador" ++ LF :: u "JOÃO DA SILVA")
     = inr (mkFields (u "JOÃO DA SILVA") [] None)
  /\ extract_fields_from_text (u "CPF: 123.456.789-00")
     = inr (mkFields [] (u "123.456.789-00") None)
  /\ extract_fields_from_text (u "SALÁRIO LÍQUIDO R$ 1.234,56")
     = inr (mkFields [] [] (Some (float_of_decimal false 123456 (-2))))
  /\ extract_fields_from_text (u "Recibo de pagamento, mês 05/2024")
     = inr (mkFields [] [] None)
  /\ (forall before after,
         Forall (fun c => literal_matches true (ch "N") c = false) before ->
         after = [] \/ (exists rest, after = LF :: rest) ->
         f_nome (fields_of (before ++ u "Nome do Colaborador" ++ LF
                                   :: u "JOÃO DA SILVA" ++ after))
         = u "JOÃO DA SILVA")
  /\ (forall before after,
         Forall (fun c => literal_matches true (ch "C") c = false) before ->
         after = [] \/ (exists rest, after = LF :: rest) ->
         f_cpf (fields_of (before ++ u "CPF: 123.456.789-00" ++ after))
         = u "123.456.789-00")
  /\ (forall before after,
         Forall (fun c => literal_matches true (ch "S") c = false) before ->
         after = [] \/ (exists rest, after = LF :: rest) ->
         f_valor_liquido
           (fields_of (before ++ u "SALÁRIO LÍQUIDO R$ 1.234,56" ++ after))
         = Some (float_of_decimal false 123456 (-2))).
Proof.
  split; [exact extract_fields_from_text_eq|].
  split; [intros text H; unfold fields_of; simpl; now rewrite H|].
  split; [intros text H; unfold fields_of; simpl; now rewrite H|].
  split; [intros text H; unfold fields_of; simpl; now rewrite H|].
  split; [intros text g H; unfold fields_of; simpl; now rewrite H|].
  split; [intros text g H; unfold fields_of; simpl; now rewrite H|].
  split; [intros text g H; unfold fields_of; simpl f_valor_liquido; now rewrite H|].
  split; [intros text; split; apply stripped_or_empty_trimmed|].
  split; [intros re_ text m H; exact (search_leftmost re_ text m H)|].
  split.
  { intros re_ text [<-|[<-|[<-|[]]]]; split;
      (apply capture_lower || apply capture_upper); reflexivity. }
  split; [vm_compute; reflexivity|].
  split; [vm_compute; reflexivity|].
  split; [vm_compute; reflexivity|].
  split; [vm_compute; reflexivity|].
  split.
  { intros before after Hb Ha. unfold fields_of. cbn [f_nome].
    rewrite (capture_skip nome_re (LITERAL (ch "N")) before _ eq_refl Hb).
    destruct Ha as [->|[rest ->]]; vm_compute; reflexivity. }
  split.
  { intros before after Hb Ha. unfold fields_of. cbn [f_cpf].
    rewrite (capture_skip cpf_re (LITERAL (ch "C")) before _ eq_refl Hb).
    destruct Ha as [->|[rest ->]]; vm_compute; reflexivity. }
  intros before after Hb Ha. unfold fields_of. cbn [f_valor_liquido].
  rewrite (capture_skip liq_re (LITERAL (ch "S")) before _ eq_refl Hb).
  destruct Ha as [->|[rest ->]]; vm_compute; reflexivity.
Qed.

(* ================================================================== *)
(** * The bulk flow: POST /extract *)
(* ================================================================== *)

Section BulkFlow.

Context {Page : Type} {backend : PdfBackend Page}.

Lemma forallb_all_empty (l : list PageResult) :
  forallb all_empty l = true <-> Forall no_fields l.
Proof.
  rewrite forallb_forall, Forall_forall.
  split; intros H r Hr; apply all_empty_iff, H, Hr.
Qed.

Lemma exists_some_field (l : list PageResult) :
  Exists some_field l -> forallb all_empty l = false.
Proof.
  intros H. apply Exists_exists in H. destruct H as (r & Hr & Hs).
  destruct (forallb all_empty l) eqn:E; [|reflexivity].
  rewrite forallb_forall in E. apply not_all_empty_iff in Hs.
  rewrite (E r Hr) in Hs. discriminate.
Qed.

(** C2: a report that [extract] answers with has one entry per page of the
    document, and the entry at position i (from 0) carries page number
    i + 1: the page numbers are 1, 2, ... up to the page count, in
    ascending order. *)
Theorem extract_report_pages (file : UploadFile) (results : list PageResult) :
  extract file = inr (JSON results) ->
  exists pages,
    PdfReader (read file) = Some (mkReader (Some pages))
    /\ length results = length pages
    /\ map page results = map Z.of_nat (seq 1 (length pages))
    /\ (forall i r, nth_error results i = Some r -> page r = (Z.of_nat i + 1)%Z)
    /\ (forall i j ri rj,
          (i < j)%nat -> nth_error results i = Some ri ->
          nth_error results j = Some rj -> (page ri < page rj)%Z).
Proof.
  intros H. apply extract_inr in H. destruct H as (_ & pages & Hr & -> & _).
  exists pages.
  assert (Hnth : forall i r,
             nth_error (report (read file) (length pages)) i = Some r ->
             page r = (Z.of_nat i + 1)%Z).
  { intros i r Hi.
    assert (Hlt : (i < length pages)%nat).
    { rewrite <- (report_length (read file) (length pages)).
      apply nth_error_Some. congruence. }
    rewrite (report_nth (read file) (length pages) i Hlt) in Hi.
    injection Hi as <-. reflexivity. }
  split; [exact Hr|]. split; [apply report_length|].
  split; [apply report_pages|]. split; [exact Hnth|].
  intros i j ri rj Hij Hi Hj.
  rewrite (Hnth i ri Hi), (Hnth j rj Hj). lia.
Qed.

(** C10: a document that parses into no page at all gives an empty report,
    over which the all-empty test holds vacuously, so that [extract] fails
    with the empty-extraction error. *)
Theorem extract_zero_pages (file : UploadFile) :
  _is_pdf_content_type (content_type file) = true ->
  PdfReader (read file) = Some (mkReader (Some [])) ->
  extract_loop (read file) (seq 0 0) [] = inr []
  /\ forallb all_empty [] = true
  /\ extract file = inl EmptyExtraction.
Proof.
  intros Hct Hp. rewrite extract_eq, Hct, Hp. repeat split.
Qed.

End BulkFlow.

(* ================================================================== *)
(** * The page splitter and the single-page flow: POST /extract/page *)
(* ================================================================== *)

Section PageSplitter.

Context {Page : Type} {backend : PdfBackend Page}.

Lemma extract_single_page_eq (index : Z) (file : UploadFile) :
  _is_pdf_content_type (content_type file) = true ->
  (1 <= index)%Z ->
  extract_single_page index file = processSinglePage_spec (read file) index.
Proof.
  intros Hct Hi. unfold extract_single_page, processSinglePage_spec.
  destruct (Z.ltb_spec index 1); [lia|]. rewrite Hct. simpl.
  destruct (page_to_pdf_bytes (read file) (index - 1)) as [[]|b]; reflexivity.
Qed.

(** C4: on a document that parses, [page_to_pdf_bytes] raises the
    out-of-range [IndexError] for every index below 0 or not below the page
    count (a negative index is refused before the pages are even read); on
    bytes that do not parse it raises the reader's error, whatever the
    index, and so it does from index 0 on when the reader is built but its
    pages cannot be read. The two are different exceptions, and the
    single-page handler tells them apart: not found for the first, a client
    error for the second. *)
Theorem page_to_pdf_bytes_failures (data : bytes) (i : Z) :
  (forall pages,
      PdfReader data = Some (mkReader (Some pages)) ->
      (i < 0 \/ Z.of_nat (length pages) <= i)%Z ->
      page_to_pdf_bytes data i = inl PageOutOfRange)
  /\ (forall r,
         PdfReader data = Some r -> (i < 0)%Z ->
         page_to_pdf_bytes data i = inl PageOutOfRange)
  /\ (PdfReader data = None -> page_to_pdf_bytes data i = inl PdfReadError)
  /\ (PdfReader data = Some (mkReader None) -> (0 <= i)%Z ->
      page_to_pdf_bytes data i = inl PdfReadError)
  /\ PageOutOfRange <> PdfReadError
  /\ (forall ct pages,
         _is_pdf_content_type ct = true ->
         PdfReader data = Some (mkReader (Some pages)) ->
         (Z.of_nat (length pages) < i)%Z -> (1 <= i)%Z ->
         extract_single_page i (mkUpload ct data) = inl PageNotFound)
  /\ (forall ct,
         _is_pdf_content_type ct = true ->
         PdfReader data = None \/ PdfReader data = Some (mkReader None) ->
         (1 <= i)%Z ->
         extract_single_page i (mkUpload ct data) = inl ProcessingFailed)
  /\ PageNotFound <> ProcessingFailed.
Proof.
  split; [intros pages Hp Hi; exact (page_to_pdf_bytes_out_of_range data pages i Hp Hi)|].
  split; [intros r Hp Hi; exact (page_to_pdf_bytes_negative data r i Hp Hi)|].
  split; [exact (page_to_pdf_bytes_unparsable data i)|].
  split; [exact (page_to_pdf_bytes_unreadable data i)|].
  split; [discriminate|].
  split.
  { intros ct pages Hct Hp Hi H1.
    rewrite extract_single_page_eq by assumption.
    unfold processSinglePage_spec. simpl.
    rewrite (page_to_pdf_bytes_out_of_range data pages (i - 1) Hp) by lia.
    reflexivity. }
  split; [|discriminate].
  intros ct Hct Hp H1.
  rewrite extract_single_page_eq by assumption.
  unfold processSinglePage_spec. simpl.
  destruct Hp as [Hp|Hp].
  - now rewrite (page_to_pdf_bytes_unparsable data (i - 1) Hp).
  - now rewrite (page_to_pdf_bytes_unreadable data (i - 1) Hp) by lia.
Qed.


(** C8: for a page number from 1 on, [extract_single_page] is the page
    splitter at the index one below: it answers with exactly the bytes
    [page_to_pdf_bytes] returns, it fails exactly when [page_to_pdf_bytes]
    raises (not found for its out-of-range error, a client error for any
    other), and nothing of it depends on the text extractor, which field
    extraction would have to read. Page 1 is split at index 0. *)
Theorem extract_single_page_is_splitter (index : Z) (file : UploadFile) :
  _is_pdf_content_type (content_type file) = true ->
  (1 <= index)%Z ->
  extract_single_page index file = processSinglePage_spec (read file) index
  /\ (forall b,
         page_to_pdf_bytes (read file) (index - 1) = inr b
         <-> extract_single_page index file
             = inr (StreamingResponse b (u "application/pdf")))
  /\ (forall e,
         page_to_pdf_bytes (read file) (index - 1) = inl e ->
         extract_single_page index file
         = inl (match e with
                | IndexError _ => PageNotFound
                | _ => ProcessingFailed
                end))
  /\ (forall text,
         @extract_single_page Page (with_extract_text backend text) index file
         = extract_single_page index file)
  /\ (index = 1%Z ->
      forall b,
        page_to_pdf_bytes (read file) 0 = inr b ->
        extract_single_page index file
        = inr (StreamingResponse b (u "application/pdf"))).
Proof.
  intros Hct Hi.
  pose proof (extract_single_page_eq index file Hct Hi) as E.
  split; [exact E|].
  assert (T : forall text,
             @extract_single_page Page (with_extract_text backend text) index file
             = extract_single_page index file) by reflexivity.
  rewrite E in T |- *. unfold processSinglePage_spec.
  split; [|split; [|split]].
  - intros b. destruct (page_to_pdf_bytes (read file) (index - 1)) as [[]|b'];
      split; intros H; try discriminate; congruence.
  - intros e ->. destruct e; reflexivity.
  - exact T.
  - intros -> b Hb. simpl. now rewrite Hb.
Qed.

End PageSplitter.

(* ================================================================== *)
(** * The handlers on the reference backend *)
(* ================================================================== *)

Section OnTheReferenceBackend.

Import Mock.

(** A three-page document: each page yields its own field. *)
Example extract_doc3 :
  @extract _ Mock.backend (upload doc3)
  = inr (JSON
           [mkPageResult 1 (u "JOÃO DA SILVA") [] None (u "JQE=");
            mkPageResult 2 [] (u "123.456.789-00") None (u "JQI=");
            mkPageResult 3 [] [] (Some (float_of_decimal false 123456 (-2))) (u "JQM=")]).
Proof. vm_compute. reflexivity. Qed.

(** Page 2 has no readable text and page 4 cannot be split: both keep their
    entry, and the tax id of page 3 makes the request succeed. *)
Example extract_doc_degraded :
  @extract _ Mock.faulty (upload doc_degraded)
  = inr (JSON
           [mkPageResult 1 [] [] None (u "JQA=");
            mkPageResult 2 [] [] None (u "Jf4=");
            mkPageResult 3 [] (u "123.456.789-00") None (u "JQI=");
            mkPageResult 4 [] [] None []]).
Proof. vm_compute. reflexivity. Qed.

Example extract_doc_blank :
  @extract _ Mock.backend (upload doc_blank) = inl EmptyExtraction.
Proof. vm_compute. reflexivity. Qed.

Example extract_garbage :
  @extract _ Mock.backend (upload garbage) = inl InvalidDocument.
Proof. vm_compute. reflexivity. Qed.

(** The floats of the literals 1234.56 and 2987.32, bit for bit, and two
    decimals that are no floats: the first is rounded to the even neighbour,
    the second is out of range. *)
Example float_1234_56 :
  float_of_decimal false 123456 (-2) = S754_finite false 5429652300748554 (-42).
Proof. vm_compute. reflexivity. Qed.

Example float_2987_32 :
  float_of_decimal false 298732 (-2) = S754_finite false 6569186151775601 (-41).
Proof. vm_compute. reflexivity. Qed.

Example float_2_53_plus_1 :
  float_of_str (u "9007199254740993") = inr (S754_finite false 4503599627370496 1).
Proof. vm_compute. reflexivity. Qed.

Example float_400_digits :
  float_of_str (repeat (ch "9") 400) = inr (Inf false).
Proof. vm_compute. reflexivity. Qed.

(** C1: a one-page document whose page reads SALÁRIO LÍQUIDO R$ followed by
    309 digits. The document parses, its only entry has a net value (the
    infinity that [float] gives for a number of that size), so the report is
    not all empty; yet [extract] does not answer with the report: building
    the [JSONResponse] raises [ValueError], which nothing catches. *)
Theorem extract_overflowing_net_value :
  _is_pdf_content_type (content_type (upload doc_overflow)) = true
  /\ @PdfReader _ Mock.backend (read (upload doc_overflow))
     = Some (mkReader (Some [x04]))
  /\ @extract_text _ Mock.backend doc_overflow [0%nat]
     = Some (u "SALÁRIO LÍQUIDO R$ " ++ repeat (ch "9") 309)
  /\ @extract_loop _ Mock.backend doc_overflow (seq 0 1) []
     = inr [mkPageResult 1 [] [] (Some (Inf false)) (u "JQQ=")]
  /\ Exists some_field [mkPageResult 1 [] [] (Some (Inf false)) (u "JQQ=")]
  /\ @extract _ Mock.backend (upload doc_overflow) = inl ValueError.
Proof.
  split; [reflexivity|]. split; [reflexivity|]. split; [reflexivity|].
  split; [vm_compute; reflexivity|]. split.
  - apply Exists_cons_hd. right; right. discriminate.
  - vm_compute. reflexivity.
Qed.

(** C3: two requests that [extract] ends with an exception that is neither
    the invalid-document nor the empty-extraction error. For a document
    whose reader is built but whose pages cannot be read, the error raised
    by [len(reader.pages)] leaves the handler as it is; for a document with
    a net value too large for a float, the [ValueError] of [JSONResponse]
    does. *)
Theorem extract_uncaught_failures :
  @PdfReader _ Mock.backend (read (upload doc_broken)) = Some (mkReader None)
  /\ @extract _ Mock.backend (upload doc_broken) = inl PdfReadError
  /\ @extract _ Mock.backend (upload doc_overflow) = inl ValueError
  /\ ~ In PdfReadError [InvalidDocument; EmptyExtraction]
  /\ ~ In ValueError [InvalidDocument; EmptyExtraction].
Proof.
  split; [reflexivity|]. split; [vm_compute; reflexivity|].
  split; [vm_compute; reflexivity|].
  split; intros [H|[H|[]]]; discriminate H.
Qed.

Lemma extract_report_pages_witness :
  exists results,
    @extract _ Mock.backend (upload doc3) = inr (JSON results)
    /\ map page results = [1; 2; 3]%Z.
Proof.
  assert (E : exists results,
             @extract _ Mock.backend (upload doc3) = inr (JSON results))
    by (eexists; exact extract_doc3).
  destruct E as [results E]. exists results. split; [exact E|].
  destruct (@extract_report_pages _ Mock.backend (upload doc3) results E)
    as (pages & Hp & _ & Hmap & _).
  injection Hp as <-. exact Hmap.
Defined.

Lemma extract_zero_pages_witness :
  _is_pdf_content_type (content_type (upload doc_empty)) = true
  /\ @PdfReader _ Mock.backend (read (upload doc_empty))
     = Some (mkReader (Some []))
  /\ @extract _ Mock.backend (upload doc_empty) = inl EmptyExtraction.
Proof.
  split; [reflexivity|]. split; [reflexivity|].
  exact (proj2 (proj2 (@extract_zero_pages _ Mock.backend (upload doc_empty)
                         eq_refl eq_refl))).
Defined.

Lemma page_to_pdf_bytes_failures_witness :
  @page_to_pdf_bytes _ Mock.backend doc3 3 = inl PageOutOfRange
  /\ @page_to_pdf_bytes _ Mock.backend doc3 (-1) = inl PageOutOfRange
  /\ @page_to_pdf_bytes _ Mock.backend garbage 0 = inl PdfReadError
  /\ @page_to_pdf_bytes _ Mock.backend doc_broken 0 = inl PdfReadError
  /\ @extract_single_page _ Mock.backend 4 (upload doc3) = inl PageNotFound
  /\ @extract_single_page _ Mock.backend 1 (upload garbage) = inl ProcessingFailed
  /\ @extract_single_page _ Mock.backend 1 (upload doc_broken)
     = inl ProcessingFailed.
Proof.
  split.
  { apply (proj1 (@page_to_pdf_bytes_failures _ Mock.backend doc3 3)
             [x01; x02; x03] eq_refl). right. simpl. lia. }
  split.
  { apply (proj1 (@page_to_pdf_bytes_failures _ Mock.backend doc3 (-1))
             [x01; x02; x03] eq_refl). left. lia. }
  split.
  { destruct (@page_to_pdf_bytes_failures _ Mock.backend garbage 0)
      as (_ & _ & H & _). exact (H eq_refl). }
  split.
  { destruct (@page_to_pdf_bytes_failures _ Mock.backend doc_broken 0)
      as (_ & _ & _ & H & _). apply H; [reflexivity|lia]. }
  split.
  { destruct (@page_to_pdf_bytes_failures _ Mock.backend doc3 4)
      as (_ & _ & _ & _ & _ & H & _).
    apply (H None [x01; x02; x03]); [reflexivity|reflexivity|simpl; lia|lia]. }
  split.
  { destruct (@page_to_pdf_bytes_failures _ Mock.backend garbage 1)
      as (_ & _ & _ & _ & _ & _ & H & _).
    apply (H None); [reflexivity|left; reflexivity|lia]. }
  destruct (@page_to_pdf_bytes_failures _ Mock.backend doc_broken 1)
    as (_ & _ & _ & _ & _ & _ & H & _).
  apply (H None); [reflexivity|right; reflexivity|lia].
Defined.



Lemma extract_single_page_is_splitter_witness :
  _is_pdf_content_type (content_type (upload doc3)) = true
  /\ (1 <= 1)%Z
  /\ @page_to_pdf_bytes _ Mock.backend doc3 0 = inr [x25; x01]
  /\ @extract_single_page _ Mock.backend 1 (upload doc3)
     = inr (StreamingResponse [x25; x01] (u "application/pdf")).
Proof.
  split; [reflexivity|]. split; [lia|]. split; [reflexivity|].
  apply (@extract_single_page_is_splitter _ Mock.backend 1 (upload doc3)
           eq_refl ltac:(lia)); reflexivity.
Defined.

Lemma extract_fields_from_text_searches_witness :
  f_nome (fields_of (u "Recibo 05/2024" ++ LF :: u "Nome do Colaborador" ++ LF
                       :: u "JOÃO DA SILVA" ++ LF :: u "CPF: 123.456.789-00"))
  = u "JOÃO DA SILVA"
  /\ f_cpf (fields_of (u "JOÃO DA SILVA" ++ LF :: u "CPF: 123.456.789-00" ++ LF
                         :: u "Mês 05/2024"))
     = u "123.456.789-00".
Proof.
  pose proof extract_fields_from_text_searches as T.
  destruct T as (_ & _ & _ & _ & _ & _ & _ & _ & _ & _ & _ & _ & _ & _ & Tn & Tc & _).
  split.
  - apply (Tn (u "Recibo 05/2024" ++ [LF]) (LF :: u "CPF: 123.456.789-00")).
    + forall_chars.
    + right. eexists. reflexivity.
  - apply (Tc (u "JOÃO DA SILVA" ++ [LF]) (LF :: u "Mês 05/2024")).
    + forall_chars.
    + right. eexists. reflexivity.
Defined.

End OnTheReferenceBackend.

(* ================================================================== *)
(** * Further properties of the handlers *)
(* ================================================================== *)

Section HandlerOutcomes.

Context {Page : Type} {backend : PdfBackend Page}.

(** The splitter from index 0 on, case by case. *)
Lemma page_to_pdf_bytes_cases (data : bytes) (i : Z) :
  (0 <= i)%Z ->
  (PdfReader data = None /\ page_to_pdf_bytes data i = inl PdfReadError)
  \/ (PdfReader data = Some (mkReader None)
      /\ page_to_pdf_bytes data i = inl PdfReadError)
  \/ (exists pages,
         PdfReader data = Some (mkReader (Some pages))
         /\ (Z.of_nat (length pages) <= i)%Z
         /\ page_to_pdf_bytes data i = inl PageOutOfRange)
  \/ (exists pages p,
         PdfReader data = Some (mkReader (Some pages))
         /\ (i < Z.of_nat (length pages))%Z
         /\ nth_error pages (Z.to_nat i) = Some p
         /\ ((PdfWriter_write [p] = None
              /\ page_to_pdf_bytes data i = inl PdfWriteError)
             \/ exists b, PdfWriter_write [p] = Some b
                          /\ page_to_pdf_bytes data i = inr b)).
Proof.
  intros H0.
  destruct (PdfReader data) as [[[pages|]]|] eqn:E.
  - destruct (Z_le_dec (Z.of_nat (length pages)) i) as [Hle|Hin].
    + right; right; left. exists pages.
      split; [reflexivity|]. split; [lia|].
      apply (page_to_pdf_bytes_out_of_range data pages i E). lia.
    + right; right; right.
      destruct (page_to_pdf_bytes_in_range data pages i E) as (p & Hn & Hs); [lia|].
      exists pages, p. split; [reflexivity|]. split; [lia|]. split; [exact Hn|].
      rewrite Hs. destruct (PdfWriter_write [p]) as [b|]; simpl.
      * right. exists b. split; reflexivity.
      * left. split; reflexivity.
  - right; left. split; [reflexivity|].
    now apply page_to_pdf_bytes_unreadable.
  - left. split; [reflexivity|]. now apply page_to_pdf_bytes_unparsable.
Qed.

Lemma extract_single_page_cases (index : Z) (file : UploadFile) :
  ((index < 1)%Z /\ extract_single_page index file = inl RequestValidationError)
  \/ ((1 <= index)%Z /\ _is_pdf_content_type (content_type file) = false
      /\ extract_single_page index file = inl NotAPdf)
  \/ ((1 <= index)%Z /\ _is_pdf_content_type (content_type file) = true
      /\ (PdfReader (read file) = None
          \/ PdfReader (read file) = Some (mkReader None))
      /\ extract_single_page index file = inl ProcessingFailed)
  \/ ((1 <= index)%Z /\ _is_pdf_content_type (content_type file) = true
      /\ exists pages,
           PdfReader (read file) = Some (mkReader (Some pages))
           /\ (Z.of_nat (length pages) < index)%Z
           /\ extract_single_page index file = inl PageNotFound)
  \/ ((1 <= index)%Z /\ _is_pdf_content_type (content_type file) = true
      /\ exists pages p,
           PdfReader (read file) = Some (mkReader (Some pages))
           /\ (index <= Z.of_nat (length pages))%Z
           /\ nth_error pages (Z.to_nat (index - 1)) = Some p
           /\ ((PdfWriter_write [p] = None
                /\ extract_single_page index file = inl ProcessingFailed)
               \/ exists b,
                    PdfWriter_write [p] = Some b
                    /\ extract_single_page index file
                       = inr (StreamingResponse b (u "application/pdf")))).
Proof.
  destruct (Z_lt_dec index 1) as [Hlt|Hge].
  { left. split; [exact Hlt|]. unfold extract_single_page.
    destruct (Z.ltb_spec index 1); [reflexivity|lia]. }
  right.
  destruct (_is_pdf_content_type (content_type file)) eqn:Hct.
  2:{ left. split; [lia|]. split; [reflexivity|]. unfold extract_single_page.
      destruct (Z.ltb_spec index 1); [lia|]. now rewrite Hct. }
  right.
  assert (E : extract_single_page index file
              = processSinglePage_spec (read file) index).
  { unfold extract_single_page, processSinglePage_spec.
    destruct (Z.ltb_spec index 1); [lia|]. rewrite Hct. simpl.
    destruct (page_to_pdf_bytes (read file) (index - 1)) as [[]|b]; reflexivity. }
  rewrite E. unfold processSinglePage_spec.
  destruct (page_to_pdf_bytes_cases (read file) (index - 1))
    as [[Hr ->]|[[Hr ->]|[(pages & Hr & Hi & ->)|(pages & p & Hr & Hi & Hn & Hw)]]];
    [lia|..].
  - left. repeat split; [lia|now left].
  - left. repeat split; [lia|now right].
  - right; left. split; [lia|]. split; [reflexivity|].
    exists pages. repeat split; [exact Hr|lia].
  - right; right. split; [lia|]. split; [reflexivity|].
    exists pages, p. split; [exact Hr|]. split; [lia|]. split; [exact Hn|].
    destruct Hw as [[Hw ->]|(b & Hw & ->)].
    + left. split; [exact Hw|reflexivity].
    + right. exists b. split; [exact Hw|reflexivity].
Qed.

(** X1: [extract_single_page] has five outcomes and no other. It refuses a
    page number below 1 before anything else, then a content type that is
    not accepted; after that it answers not found exactly when the pages of
    the document are read and are fewer than the page number, the processing
    error exactly when no reader can be built, its pages cannot be read or
    the requested page cannot be written, and otherwise the bytes the writer
    gives for that one page, as application/pdf. *)
Theorem extract_single_page_outcomes (index : Z) (file : UploadFile) :
  (extract_single_page index file = inl RequestValidationError <-> (index < 1)%Z)
  /\ (extract_single_page index file = inl NotAPdf
      <-> (1 <= index)%Z /\ _is_pdf_content_type (content_type file) = false)
  /\ (extract_single_page index file = inl PageNotFound
      <-> (1 <= index)%Z /\ _is_pdf_content_type (content_type file) = true
          /\ exists pages,
               PdfReader (read file) = Some (mkReader (Some pages))
               /\ (Z.of_nat (length pages) < index)%Z)
  /\ (extract_single_page index file = inl ProcessingFailed
      <-> (1 <= index)%Z /\ _is_pdf_content_type (content_type file) = true
          /\ (PdfReader (read file) = None
              \/ PdfReader (read file) = Some (mkReader None)
              \/ exists pages p,
                   PdfReader (read file) = Some (mkReader (Some pages))
                   /\ nth_error pages (Z.to_nat (index - 1)) = Some p
                   /\ PdfWriter_write [p] = None))
  /\ (forall response,
         extract_single_page index file = inr response
         <-> (1 <= index)%Z /\ _is_pdf_content_type (content_type file) = true
             /\ exists pages p b,
                  PdfReader (read file) = Some (mkReader (Some pages))
                  /\ nth_error pages (Z.to_nat (index - 1)) = Some p
                  /\ PdfWriter_write [p] = Some b
                  /\ response = StreamingResponse b (u "application/pdf"))
  /\ (forall e,
         extract_single_page index file = inl e ->
         In e [RequestValidationError; NotAPdf; PageNotFound; ProcessingFailed]).
Proof.
  destruct (extract_single_page_cases index file)
    as [[Hi E]|[(Hi & Hct & E)|[(Hi & Hct & Hr & E)|[(Hi & Hct & pages & Hr & Hlen & E)
       |(Hi & Hct & pages & p & Hr & Hlen & Hn & [[Hw E]|(b & Hw & E)])]]]];
    rewrite E; clear E;
    (repeat match goal with
            | |- _ /\ _ => split
            | |- _ <-> _ => split
            | |- forall _, _ => intro
            end);
    outcome.
Qed.

End HandlerOutcomes.

Section BulkOutcomes.

Context {Page : Type} {backend : PdfBackend Page}.

Lemma forallb_all_empty_false (l : list PageResult) :
  forallb all_empty l = false <-> Exists some_field l.
Proof.
  split; [|apply exists_some_field].
  induction l as [|r l IH]; simpl; [discriminate|].
  destruct (all_empty r) eqn:E; simpl.
  - intros H. right. now apply IH.
  - intros _. left. now apply not_all_empty_iff.
Qed.

(** X2: [extract] has seven outcomes and no other. It raises the
    content-type error exactly when the content type is not accepted,
    whatever the bytes are; the invalid-document error exactly when the
    content type is accepted and no reader can be built; the error of the
    library, uncaught, exactly when the reader is built and its pages cannot
    be read; the empty-extraction error exactly when the pages are read and
    none yields a field. When some page yields a field, it lets through the
    [ValueError] of [JSONResponse] exactly when a net value is not a finite
    number, its [UnicodeEncodeError] exactly when every net value is finite
    and some string holds a surrogate, and otherwise it answers with the
    report of all pages. *)
Theorem extract_outcomes (file : UploadFile) :
  (extract file = inl NotAPdf
   <-> _is_pdf_content_type (content_type file) = false)
  /\ (extract file = inl InvalidDocument
      <-> _is_pdf_content_type (content_type file) = true
          /\ PdfReader (read file) = None)
  /\ (extract file = inl PdfReadError
      <-> _is_pdf_content_type (content_type file) = true
          /\ PdfReader (read file) = Some (mkReader None))
  /\ (extract file = inl EmptyExtraction
      <-> _is_pdf_content_type (content_type file) = true
          /\ exists pages,
               PdfReader (read file) = Some (mkReader (Some pages))
               /\ Forall no_fields (report (read file) (length pages)))
  /\ (extract file = inl ValueError
      <-> _is_pdf_content_type (content_type file) = true
          /\ exists pages,
               PdfReader (read file) = Some (mkReader (Some pages))
               /\ Exists some_field (report (read file) (length pages))
               /\ forallb json_compliant (report (read file) (length pages))
                  = false)
  /\ (extract file = inl UnicodeEncodeError
      <-> _is_pdf_content_type (content_type file) = true
          /\ exists pages,
               PdfReader (read file) = Some (mkReader (Some pages))
               /\ Exists some_field (report (read file) (length pages))
               /\ forallb json_compliant (report (read file) (length pages))
                  = true
               /\ forallb utf8_encodable (report (read file) (length pages))
                  = false)
  /\ (forall response,
         extract file = inr response
         <-> _is_pdf_content_type (content_type file) = true
             /\ exists pages,
                  PdfReader (read file) = Some (mkReader (Some pages))
                  /\ Exists some_field (report (read file) (length pages))
                  /\ forallb json_compliant (report (read file) (length pages))
                     = true
                  /\ forallb utf8_encodable (report (read file) (length pages))
                     = true
                  /\ response = JSON (report (read file) (length pages)))
  /\ (forall e,
         extract file = inl e ->
         In e [NotAPdf; InvalidDocument; PdfReadError; EmptyExtraction;
               ValueError; UnicodeEncodeError]).
Proof.
  rewrite extract_eq.
  destruct (_is_pdf_content_type (content_type file)) eqn:Hct; simpl.
  2:{ repeat match goal with
             | |- _ /\ _ => split
             | |- _ <-> _ => split
             | |- forall _, _ => intro
             end; outcome. }
  destruct (PdfReader (read file)) as [[[pages|]]|] eqn:Hr.
  2,3: repeat match goal with
              | |- _ /\ _ => split
              | |- _ <-> _ => split
              | |- forall _, _ => intro
              end; outcome.
  cbv zeta.
  destruct (forallb all_empty (report (read file) (length pages))) eqn:Hall.
  - pose proof (proj1 (forallb_all_empty _) Hall) as Hf.
    assert (Hnot : ~ Exists some_field (report (read file) (length pages))).
    { intros H. apply exists_some_field in H. congruence. }
    repeat match goal with
           | |- _ /\ _ => split
           | |- _ <-> _ => split
           | |- forall _, _ => intro
           end; outcome.
  - pose proof (proj1 (forallb_all_empty_false _) Hall) as He.
    assert (Hnot : ~ Forall no_fields (report (read file) (length pages))).
    { intros H. apply forallb_all_empty in H. congruence. }
    unfold JSONResponse, raise, ret.
    destruct (forallb json_compliant (report (read file) (length pages))) eqn:Hj;
      [destruct (forallb utf8_encodable (report (read file) (length pages))) eqn:Hu|];
      simpl;
      repeat match goal with
             | |- _ /\ _ => split
             | |- _ <-> _ => split
             | |- forall _, _ => intro
             end; outcome.
Qed.

(** An entry of a report that [extract] answers with. *)
Lemma extract_entry (file : UploadFile) (results : list PageResult)
      (i : nat) (r : PageResult) :
  extract file = inr (JSON results) ->
  nth_error results i = Some r ->
  _is_pdf_content_type (content_type file) = true
  /\ r = page_result (read file) i
  /\ exists pages p,
       PdfReader (read file) = Some (mkReader (Some pages))
       /\ nth_error pages i = Some p
       /\ page_to_pdf_bytes (read file) (Z.of_nat i)
          = call PdfWriteError (PdfWriter_write [p]).
Proof.
  intros H Hn. apply extract_inr in H.
  destruct H as (Hct & pages & Hr & -> & _).
  assert (Hi : (i < length pages)%nat).
  { rewrite <- (report_length (read file) (length pages)).
    apply nth_error_Some. congruence. }
  rewrite (report_nth (read file) (length pages) i Hi) in Hn.
  injection Hn as <-.
  split; [exact Hct|]. split; [reflexivity|].
  destruct (page_to_pdf_bytes_in_range (read file) pages (Z.of_nat i) Hr)
    as (p & Hp & Hs); [lia|].
  rewrite Nat2Z.id in Hp. exists pages, p. auto.
Qed.

(** X3: the two endpoints agree. For every entry of a report that [extract]
    answers with, [extract_single_page] asked for the page number of the
    entry never answers not found: it either returns, as application/pdf,
    the very bytes whose base64 text the entry holds, or it fails with the
    processing error, and then the entry holds the empty string. *)
Theorem report_entry_is_single_page (file : UploadFile)
        (results : list PageResult) (i : nat) (r : PageResult) :
  extract file = inr (JSON results) ->
  nth_error results i = Some r ->
  page r = (Z.of_nat i + 1)%Z
  /\ match extract_single_page (page r) file with
     | inr (StreamingResponse b media_type) =>
         page_pdf_base64 r = map Byte.to_N (Base64.b64encode b)
         /\ media_type = u "application/pdf"
     | inr (JSON _) => False
     | inl e => e = ProcessingFailed /\ page_pdf_base64 r = []
     end.
Proof.
  intros He Hn.
  destruct (extract_entry file results i r He Hn)
    as (Hct & -> & pages & p & Hr & Hp & Hs).
  split; [reflexivity|].
  change (page (page_result (read file) i)) with (Z.of_nat i + 1)%Z.
  rewrite extract_single_page_eq by (assumption || lia).
  unfold processSinglePage_spec, page_result, page_b64_of. simpl.
  replace (Z.of_nat i + 1 - 1)%Z with (Z.of_nat i) by lia.
  rewrite Hs. destruct (PdfWriter_write [p]) as [b|]; simpl; auto.
Qed.

(** X4: in a report that [extract] answers with, the [page_pdf_base64] of
    an entry is the empty string exactly when the writer fails on the page
    of the entry or writes no byte for it; otherwise it is the base64 text
    of the bytes written, which is never empty. *)
Theorem report_entry_without_page (file : UploadFile)
        (results : list PageResult) (i : nat) (r : PageResult) :
  extract file = inr (JSON results) ->
  nth_error results i = Some r ->
  exists pages p,
    PdfReader (read file) = Some (mkReader (Some pages))
    /\ nth_error pages i = Some p
    /\ (page_pdf_base64 r = []
        <-> PdfWriter_write [p] = None \/ PdfWriter_write [p] = Some [])
    /\ (forall b,
           PdfWriter_write [p] = Some b ->
           page_pdf_base64 r = map Byte.to_N (Base64.b64encode b)).
Proof.
  intros He Hn.
  destruct (extract_entry file results i r He Hn)
    as (Hct & -> & pages & p & Hr & Hp & Hs).
  exists pages, p. split; [exact Hr|]. split; [exact Hp|].
  unfold page_result, page_b64_of. cbn [page_pdf_base64]. rewrite Hs.
  destruct (PdfWriter_write [p]) as [b|]; simpl.
  - split.
    + split.
      * intros H. right. f_equal.
        apply b64encode_nil_iff. now apply map_eq_nil in H.
      * intros [H|[= ->]]; [discriminate|reflexivity].
    + now intros b' [= <-].
  - split; [split; auto|discriminate].
Qed.

(** X14: the loop of [extract] cannot raise and leaves no page out. Whatever
    the text extractor and the page splitter do, it ends with one entry for
    each index, in order: a page whose text cannot be extracted has the
    fields of the empty text, which are all empty, any other page the fields
    of its own text; a page that cannot be split has an empty
    [page_pdf_base64], any other page the base64 text of its bytes. *)
Theorem extract_loop_degrades (data : bytes) (n : nat) :
  extract_loop data (seq 0 n) [] = inr (report data n)
  /\ length (report data n) = n
  /\ (forall i,
         (i < n)%nat ->
         exists r,
           nth_error (report data n) i = Some r
           /\ page r = (Z.of_nat i + 1)%Z
           /\ (extract_text data [i] = None -> no_fields r)
           /\ (forall t, extract_text data [i] = Some t ->
                 mkFields (nome r) (cpf r) (valor_liquido r) = fields_of t)
           /\ (forall e, page_to_pdf_bytes data (Z.of_nat i) = inl e ->
                 page_pdf_base64 r = [])
           /\ (forall b, page_to_pdf_bytes data (Z.of_nat i) = inr b ->
                 page_pdf_base64 r = map Byte.to_N (Base64.b64encode b))).
Proof.
  split; [now rewrite extract_loop_eq|]. split; [apply report_length|].
  intros i Hi. exists (page_result data i).
  split; [now apply report_nth|]. split; [reflexivity|].
  unfold page_result, page_text_of, page_b64_of, no_fields.
  cbn [nome cpf valor_liquido page_pdf_base64].
  split; [|split; [|split]].
  - intros ->. split; [|split]; vm_compute; reflexivity.
  - intros t ->. reflexivity.
  - intros e ->. reflexivity.
  - intros b ->. reflexivity.
Qed.

End BulkOutcomes.

Section OutcomesOnTheReferenceBackend.

Import Mock.

Lemma report_entry_is_single_page_witness :
  page (mkPageResult 3 [] (u "123.456.789-00") None (u "JQI=")) = 3%Z
  /\ match @extract_single_page _ Mock.faulty
             (page (mkPageResult 3 [] (u "123.456.789-00") None (u "JQI=")))
             (upload doc_degraded) with
     | inr (StreamingResponse b media_type) =>
         page_pdf_base64 (mkPageResult 3 [] (u "123.456.789-00") None (u "JQI="))
         = map Byte.to_N (Base64.b64encode b)
         /\ media_type = u "application/pdf"
     | inr (JSON _) => False
     | inl e =>
         e = ProcessingFailed
         /\ page_pdf_base64 (mkPageResult 3 [] (u "123.456.789-00") None (u "JQI="))
            = []
     end.
Proof.
  exact (@report_entry_is_single_page _ Mock.faulty (upload doc_degraded) _ 2
           (mkPageResult 3 [] (u "123.456.789-00") None (u "JQI="))
           extract_doc_degraded eq_refl).
Defined.

Lemma report_entry_without_page_witness :
  exists pages p,
    @PdfReader _ Mock.faulty (read (upload doc_degraded))
    = Some (mkReader (Some pages))
    /\ nth_error pages 3 = Some p
    /\ (page_pdf_base64 (mkPageResult 4 [] [] None []) = []
        <-> @PdfWriter_write _ Mock.faulty [p] = None
            \/ @PdfWriter_write _ Mock.faulty [p] = Some [])
    /\ (forall b,
           @PdfWriter_write _ Mock.faulty [p] = Some b ->
           page_pdf_base64 (mkPageResult 4 [] [] None [])
           = map Byte.to_N (Base64.b64encode b)).
Proof.
  exact (@report_entry_without_page _ Mock.faulty (upload doc_degraded) _ 3
           (mkPageResult 4 [] [] None []) extract_doc_degraded eq_refl).
Defined.

End OutcomesOnTheReferenceBackend.

(* ================================================================== *)
(** * Further properties of the searches *)
(* ================================================================== *)

Section SubstringFacts.

Lemma substring_refl (w : str) : substring w w.
Proof. exists [], []. now rewrite app_nil_r. Qed.

Lemma substring_nil (text : str) : substring [] text.
Proof. exists [], text. reflexivity. Qed.

Lemma substring_trans (u v w : str) :
  substring u v -> substring v w -> substring u w.
Proof.
  intros (a & b & ->) (c & d & ->).
  exists (c ++ a), (b ++ d). now rewrite <- !app_assoc.
Qed.

Lemma substring_app_l (w s t : str) : substring w s -> substring w (s ++ t).
Proof.
  intros (a & b & ->). exists a, (b ++ t). now rewrite <- !app_assoc.
Qed.

Lemma substring_app_r (w s t : str) : substring w t -> substring w (s ++ t).
Proof.
  intros (a & b & ->). exists (s ++ a), b. now rewrite <- !app_assoc.
Qed.

Lemma lstrip_suffix (s : str) : exists a, s = a ++ lstrip s.
Proof.
  induction s as [|c s (a & IH)]; simpl.
  - now exists [].
  - destruct (isspace c).
    + exists (c :: a). simpl. now rewrite <- IH.
    + now exists [].
Qed.

Lemma rstrip_prefix (s : str) : exists b, s = rstrip s ++ b.
Proof.
  induction s as [|c s (b & IH)]; simpl.
  - now exists [].
  - destruct (rstrip s) as [|d r] eqn:E.
    + destruct (isspace c).
      * now exists (c :: s).
      * exists b. simpl in IH |- *. congruence.
    + exists b. simpl in IH |- *. congruence.
Qed.

Lemma strip_substring (s : str) : substring (strip s) s.
Proof.
  unfold strip.
  destruct (lstrip_suffix s) as (a & Ha).
  destruct (rstrip_prefix (lstrip s)) as (b & Hb).
  exists a, b. now rewrite <- Hb.
Qed.

Lemma Forall_lstrip (P : codepoint -> Prop) (s : str) :
  Forall P s -> Forall P (lstrip s).
Proof.
  induction 1 as [|c s Hc Hs IH]; simpl; [constructor|].
  destruct (isspace c); [exact IH|now constructor].
Qed.

Lemma Forall_rstrip (P : codepoint -> Prop) (s : str) :
  Forall P s -> Forall P (rstrip s).
Proof.
  induction 1 as [|c s Hc Hs IH]; simpl; [constructor|].
  destruct (rstrip s) as [|d r].
  - destruct (isspace c); repeat constructor; assumption.
  - now constructor.
Qed.

Lemma Forall_strip (P : codepoint -> Prop) (s : str) :
  Forall P s -> Forall P (strip s).
Proof. intros H. now apply Forall_rstrip, Forall_lstrip. Qed.

(** There is nothing to strip from a text without white space. *)
Lemma rstrip_no_space (s : str) :
  Forall (fun c => isspace c = false) s -> rstrip s = s.
Proof.
  induction 1 as [|c s Hc Hs IH]; simpl; [reflexivity|].
  rewrite IH. destruct s; [now rewrite Hc|reflexivity].
Qed.

Lemma strip_no_space (s : str) :
  Forall (fun c => isspace c = false) s -> strip s = s.
Proof.
  intros H. unfold strip.
  assert (E : lstrip s = s) by (destruct H as [|c s Hc Hs]; simpl; [|rewrite Hc]; reflexivity).
  rewrite E. now apply rstrip_no_space.
Qed.

End SubstringFacts.

Section MatcherGroups.

Context {R : Type}.

(** A greedy repetition takes at least [lo] characters, all of which pass
    the test. *)
Lemma repeat_greedy_taken (ok : codepoint -> bool) (s : str) :
  forall lo hi (k : str -> str -> option R) r,
    repeat_greedy ok lo hi s k = Some r ->
    exists t s',
      k t s' = Some r /\ s = t ++ s'
      /\ Forall (fun c => ok c = true) t /\ (lo <= length t)%nat.
Proof.
  induction s as [|c s IH]; intros lo hi k r; simpl.
  - destruct lo; [|discriminate]. intros H. exists [], [].
    repeat split; auto.
  - assert (Hstop : match lo with O => k [] (c :: s) | S _ => None end = Some r ->
                    exists t s',
                      k t s' = Some r /\ c :: s = t ++ s'
                      /\ Forall (fun c => ok c = true) t /\ (lo <= length t)%nat).
    { destruct lo; [|discriminate]. intros H. exists [], (c :: s).
      repeat split; auto. }
    destruct (ok c) eqn:Hc; simpl; [|exact Hstop].
    destruct (below hi); [|exact Hstop].
    destruct (repeat_greedy ok (pred lo) (decr hi) s
                            (fun taken rest => k (c :: taken) rest)) eqn:E;
      [|exact Hstop].
    intros [= <-]. apply IH in E. destruct E as (t & s' & H & -> & Ht & Hlo).
    exists (c :: t), s'. repeat split; auto. simpl. lia.
Qed.

(** Group 1 of a pattern whose groups repeat an atom is a non-empty run of
    characters of that atom. *)
Lemma exec_group_of (ic : bool) (a : atom) (p : pattern) :
  groups_repeat a p ->
  forall s g (k : str -> str -> option str -> option R) r,
    group_of ic a g ->
    exec ic p s g k = Some r ->
    exists t s' g', k t s' g' = Some r /\ group_of ic a g'.
Proof.
  induction p as [|b|p1 IH1 p2 IH2|p1 IH1 p2 IH2|lo hi b|p1 IH1];
    intros Hp s g k r Hg; simpl.
  - intros H. now exists [], s, g.
  - destruct s as [|c s]; [discriminate|].
    destruct (atom_matches ic b c); [|discriminate].
    intros H. now exists [c], s, g.
  - destruct Hp as [Hp1 Hp2]. intros H.
    apply (IH1 Hp1 _ _ _ _ Hg) in H. destruct H as (t1 & s1 & g1 & H & Hg1).
    apply (IH2 Hp2 _ _ _ _ Hg1) in H. destruct H as (t2 & s2 & g2 & H & Hg2).
    now exists (t1 ++ t2), s2, g2.
  - destruct Hp as [Hp1 Hp2].
    destruct (exec ic p1 s g k) eqn:E.
    + intros [= <-]. exact (IH1 Hp1 _ _ _ _ Hg E).
    + intros H. exact (IH2 Hp2 _ _ _ _ Hg H).
  - intros H. apply repeat_greedy_cont in H. destruct H as (t & s' & H & _).
    now exists t, s', g.
  - destruct p1 as [| | | |lo hi b|]; simpl in Hp; try contradiction.
    destruct lo as [|lo]; [contradiction|]. subst b. simpl.
    intros H. apply repeat_greedy_taken in H.
    destruct H as (t & s' & H & _ & Ht & Hlo).
    exists t, s', (Some t). split; [exact H|]. split; [|exact Ht].
    destruct t; [simpl in Hlo; lia|discriminate].
Qed.

(** Group 1 is a part of what the pattern has taken. *)
Lemma exec_group_within (ic : bool) (p : pattern) :
  forall s g (k : str -> str -> option str -> option R) r,
    exec ic p s g k = Some r ->
    exists t s' g',
      k t s' g' = Some r /\ s = t ++ s' /\ group_within g g' t.
Proof.
  induction p as [|b|p1 IH1 p2 IH2|p1 IH1 p2 IH2|lo hi b|p1 IH1];
    intros s g k r; simpl.
  - intros H. exists [], s, g. repeat split; [exact H|now left].
  - destruct s as [|c s]; [discriminate|].
    destruct (atom_matches ic b c); [|discriminate].
    intros H. exists [c], s, g. repeat split; [exact H|now left].
  - intros H. apply IH1 in H. destruct H as (t1 & s1 & g1 & H & -> & W1).
    apply IH2 in H. destruct H as (t2 & s2 & g2 & H & -> & W2).
    exists (t1 ++ t2), s2, g2. repeat split; [exact H|apply app_assoc|].
    destruct W2 as [->|(w & -> & Hw)].
    + destruct W1 as [->|(w & -> & Hw)]; [now left|].
      right. exists w. split; [reflexivity|now apply substring_app_l].
    + right. exists w. split; [reflexivity|now apply substring_app_r].
  - destruct (exec ic p1 s g k) eqn:E.
    + intros [= <-]. exact (IH1 _ _ _ _ E).
    + intros H. exact (IH2 _ _ _ _ H).
  - intros H. apply repeat_greedy_cont in H. destruct H as (t & s' & H & ->).
    exists t, s', g. repeat split; [exact H|now left].
  - intros H. apply IH1 in H. destruct H as (t1 & s1 & g1 & H & -> & _).
    exists t1, s1, (Some t1). repeat split; [exact H|].
    right. exists t1. split; [reflexivity|apply substring_refl].
Qed.

End MatcherGroups.

Section CaptureFacts.

Variable re_ : Pattern.

Lemma capture_group_of (a : atom) (text g : str) :
  groups_repeat a (ast re_) ->
  capture re_ text = Some g ->
  g <> [] /\ Forall (fun c => atom_matches (IGNORECASE re_) a c = true) g.
Proof.
  intros Hp. unfold capture.
  destruct (search re_ text) as [m|] eqn:E; [|discriminate].
  intros Hg. apply search_leftmost in E. destruct E as (_ & E & _).
  unfold match_at in E.
  apply (exec_group_of (IGNORECASE re_) a (ast re_) Hp) in E; [|exact I].
  destruct E as (t & s' & g' & [= Hm] & Hg').
  assert (E : group1 m = g') by (rewrite <- Hm; reflexivity).
  rewrite <- E, Hg in Hg'. exact Hg'.
Qed.

Lemma capture_substring (text g : str) :
  capture re_ text = Some g -> substring g text.
Proof.
  unfold capture.
  destruct (search re_ text) as [m|] eqn:E; [|discriminate].
  intros Hg. apply search_leftmost in E. destruct E as (_ & E & _).
  unfold match_at in E. apply exec_group_within in E.
  destruct E as (t & s' & g' & [= Hm] & Hs & W).
  assert (E : group1 m = g') by (rewrite <- Hm; reflexivity).
  destruct W as [W|(w & W & Hw)]; [congruence|].
  assert (w = g) as -> by congruence.
  rewrite <- (firstn_skipn (m_start m) text).
  apply substring_app_r. rewrite Hs. now apply substring_app_l.
Qed.

End CaptureFacts.

Section CaptureClasses.

(** Under [re.I] a pattern character below the letters matches itself only. *)
Lemma literal_matches_low (p c : codepoint) :
  (p < 65)%N -> literal_matches true p c = (p =? c)%N.
Proof.
  intros Hp. unfold literal_matches.
  assert (Ep : fold_case p = p) by (unfold fold_case; ntest).
  assert (Ec : fold_case c = c \/ (65 <= c /\ 97 <= fold_case c)%N)
    by (unfold fold_case; ntest; first [left; reflexivity|right; lia]).
  rewrite Ep. destruct Ec as [->|[Hc Hf]]; [reflexivity|].
  destruct (N.eqb_spec p (fold_case c)), (N.eqb_spec p c); (reflexivity || lia).
Qed.

Lemma todecimal_in_some (zs : list codepoint) (c : codepoint) (d : N) :
  todecimal_in zs c = Some d ->
  exists z, In z zs /\ (z <= c < z + 10)%N /\ d = (c - z)%N.
Proof.
  induction zs as [|z zs IH]; simpl; [discriminate|].
  destruct (N.leb_spec z c); simpl.
  - destruct (N.ltb_spec c (z + 10)).
    + intros [= <-]. exists z. repeat split; auto.
    + intros H'. destruct (IH H') as (z' & Hz & Hb). exists z'. auto.
  - intros H'. destruct (IH H') as (z' & Hz & Hb). exists z'. auto.
Qed.

Lemma decimal_zeros_no_space :
  Forall (fun z => forall c, (z <= c < z + 10)%N -> isspace c = false)
         decimal_zeros.
Proof.
  unfold decimal_zeros.
  repeat (apply Forall_cons; [intros c Hc; unfold isspace; ntest|]).
  apply Forall_nil.
Qed.

(** A decimal digit is not white space. *)
Lemma isdecimal_not_space (c : codepoint) :
  isdecimal c = true -> isspace c = false.
Proof.
  unfold isdecimal, todecimal.
  destruct (todecimal_in decimal_zeros c) as [d|] eqn:E; [|discriminate].
  intros _. apply todecimal_in_some in E. destruct E as (z & Hz & Hb & _).
  pose proof decimal_zeros_no_space as T. rewrite Forall_forall in T.
  exact (T z Hz c Hb).
Qed.

Lemma cpf_atom (c : codepoint) :
  atom_matches true
    (IN [SCategory CATEGORY_DIGIT; SLiteral (ch "."); SLiteral (ch "-")]) c
  = cpf_char c.
Proof.
  unfold cpf_char. cbn [atom_matches existsb item_matches category_matches].
  rewrite !literal_matches_low by (vm_compute; reflexivity).
  rewrite orb_false_r, orb_assoc, (N.eqb_sym (ch ".")), (N.eqb_sym (ch "-")).
  reflexivity.
Qed.

Lemma liq_atom (c : codepoint) :
  atom_matches true
    (IN [SCategory CATEGORY_DIGIT; SLiteral (ch "."); SLiteral (ch ",")]) c
  = liq_char c.
Proof.
  unfold liq_char. cbn [atom_matches existsb item_matches category_matches].
  rewrite !literal_matches_low by (vm_compute; reflexivity).
  rewrite orb_false_r, orb_assoc, (N.eqb_sym (ch ".")), (N.eqb_sym (ch ",")).
  reflexivity.
Qed.

Lemma nome_atom (c : codepoint) :
  atom_matches true (NOT_IN [SLiteral LF; SLiteral CR]) c = true ->
  c <> LF /\ c <> CR.
Proof.
  cbn [atom_matches existsb item_matches category_matches].
  rewrite !literal_matches_low by (vm_compute; reflexivity).
  rewrite orb_false_r, negb_true_iff, orb_false_iff, !N.eqb_neq. intuition.
Qed.

Lemma cpf_char_no_space (c : codepoint) : cpf_char c = true -> isspace c = false.
Proof.
  unfold cpf_char. rewrite !orb_true_iff, !N.eqb_eq.
  intros [[H| ->]| ->]; [now apply isdecimal_not_space|reflexivity..].
Qed.

Lemma liq_char_no_space (c : codepoint) : liq_char c = true -> isspace c = false.
Proof.
  unfold liq_char. rewrite !orb_true_iff, !N.eqb_eq.
  intros [[H| ->]| ->]; [now apply isdecimal_not_space|reflexivity..].
Qed.

Lemma cpf_re_groups :
  groups_repeat (IN [SCategory CATEGORY_DIGIT; SLiteral (ch "."); SLiteral (ch "-")])
                (ast cpf_re).
Proof. cbv. intuition. Qed.

Lemma liq_re_groups :
  groups_repeat (IN [SCategory CATEGORY_DIGIT; SLiteral (ch "."); SLiteral (ch ",")])
                (ast liq_re).
Proof. cbv. intuition. Qed.

Lemma nome_re_groups :
  groups_repeat (NOT_IN [SLiteral LF; SLiteral CR]) (ast nome_re).
Proof. cbv. intuition. Qed.

Lemma capture_cpf (text g : str) :
  capture cpf_re text = Some g ->
  g <> [] /\ Forall (fun c => cpf_char c = true) g.
Proof.
  intros H. destruct (capture_group_of cpf_re _ text g cpf_re_groups H) as [Hn Hf].
  split; [exact Hn|]. eapply Forall_impl; [|exact Hf].
  intros c Hc. simpl in Hc. now rewrite <- cpf_atom.
Qed.

Lemma capture_liq (text g : str) :
  capture liq_re text = Some g ->
  g <> [] /\ Forall (fun c => liq_char c = true) g.
Proof.
  intros H. destruct (capture_group_of liq_re _ text g liq_re_groups H) as [Hn Hf].
  split; [exact Hn|]. eapply Forall_impl; [|exact Hf].
  intros c Hc. simpl in Hc. now rewrite <- liq_atom.
Qed.

(** X5: the tax id [extract_fields_from_text] returns is the capture as it
    stands in the text (there is never anything to strip): a run of
    consecutive characters of the text, each a decimal digit, a full stop or
    a hyphen. It is empty only when the pattern has no match. *)
Theorem cpf_field_shape (text : str) :
  Forall (fun c => cpf_char c = true) (f_cpf (fields_of text))
  /\ f_cpf (fields_of text)
     = match capture cpf_re text with Some g => g | None => [] end
  /\ (f_cpf (fields_of text) = [] <-> capture cpf_re text = None)
  /\ substring (f_cpf (fields_of text)) text.
Proof.
  unfold fields_of. cbn [f_cpf].
  destruct (capture cpf_re text) as [g|] eqn:E; simpl.
  - destruct (capture_cpf text g E) as [Hn Hf].
    assert (Hs : strip g = g).
    { apply strip_no_space. eapply Forall_impl; [|exact Hf].
      intros c. apply cpf_char_no_space. }
    rewrite Hs. split; [exact Hf|]. split; [reflexivity|]. split.
    + split; [contradiction|discriminate].
    + exact (capture_substring cpf_re text g E).
  - split; [constructor|]. split; [reflexivity|]. split; [tauto|].
    apply substring_nil.
Qed.

(** X6: the name [extract_fields_from_text] returns stands in the text as a
    run of consecutive characters, and it never holds a line feed or a
    carriage return: it is part of one line. *)
Theorem nome_field_shape (text : str) :
  Forall (fun c => c <> LF /\ c <> CR) (f_nome (fields_of text))
  /\ substring (f_nome (fields_of text)) text.
Proof.
  unfold fields_of. cbn [f_nome].
  destruct (capture nome_re text) as [g|] eqn:E; simpl.
  - destruct (capture_group_of nome_re _ text g nome_re_groups E) as [_ Hf].
    split.
    + apply Forall_strip. eapply Forall_impl; [|exact Hf].
      intros c. apply nome_atom.
    + eapply substring_trans; [apply strip_substring|].
      exact (capture_substring nome_re text g E).
  - split; [constructor|apply substring_nil].
Qed.

End CaptureClasses.

(* ================================================================== *)
(** * Further properties of the numeric normaliser *)
(* ================================================================== *)

Section FloatFacts.

Lemma to_number_br_eq (s : str) :
  s <> [] ->
  to_number_br (Some s)
  = match float_of_str (map comma_to_dot (filter not_dot s)) with
    | inr f => Some f
    | inl _ => None
    end.
Proof.
  destruct s as [|c s]; [contradiction|]. intros _.
  unfold to_number_br. change (u ".") with [ch "."].
  now rewrite replace_remove, replace_one.
Qed.

Lemma float_of_str_empty : float_of_str [] = inl ValueError.
Proof. reflexivity. Qed.

Lemma to_number_br_filter (s : str) :
  to_number_br (Some (filter not_dot s)) = to_number_br (Some s).
Proof.
  destruct s as [|c s]; [reflexivity|].
  rewrite (to_number_br_eq (c :: s)) by discriminate.
  destruct (filter not_dot (c :: s)) as [|d r] eqn:E; [reflexivity|].
  rewrite to_number_br_eq by discriminate.
  rewrite <- E.
  assert (Hi : forall l, filter not_dot (filter not_dot l) = filter not_dot l).
  { induction l as [|x l IH]; simpl; [reflexivity|].
    destruct (not_dot x) eqn:Ex; simpl; [rewrite Ex|]; now rewrite ?IH. }
  now rewrite Hi.
Qed.

(** ** Texts of ASCII digits and full stops *)

Lemma c_lstrip_head (s : str) :
  match s with [] => True | c :: _ => c_isspace c = false end ->
  c_lstrip s = s.
Proof. destruct s as [|c s]; simpl; [reflexivity|]. now intros ->. Qed.

Lemma c_strip_no_space (s : str) :
  Forall (fun c => c_isspace c = false) s -> c_strip s = s.
Proof.
  intros H. unfold c_strip.
  rewrite (c_lstrip_head s) by (destruct H; auto).
  assert (Hr : Forall (fun c => c_isspace c = false) (rev s))
    by (apply Forall_rev; exact H).
  rewrite (c_lstrip_head (rev s)) by (destruct Hr; auto).
  apply rev_involutive.
Qed.

Lemma digit_or_dot_cases (c : codepoint) :
  digit_or_dot c = true -> (c = 46 \/ 48 <= c <= 57)%N.
Proof. unfold digit_or_dot, is_ascii_digit. ntest; discriminate. Qed.

Lemma digit_or_dot_no_space (s : str) :
  Forall (fun c => digit_or_dot c = true) s ->
  Forall (fun c => c_isspace c = false) s.
Proof.
  apply Forall_impl. intros c Hc. apply digit_or_dot_cases in Hc.
  unfold c_isspace. ntest.
Qed.

Lemma digit_or_dot_no_underscore (s : str) :
  Forall (fun c => digit_or_dot c = true) s -> existsb (N.eqb 95) s = false.
Proof.
  induction 1 as [|c s Hc _ IH]; cbn [existsb]; [reflexivity|].
  rewrite IH, orb_false_r. apply digit_or_dot_cases in Hc. ntest.
Qed.

Lemma digit_or_dot_lower (s : str) :
  Forall (fun c => digit_or_dot c = true) s -> map ascii_lower s = s.
Proof.
  induction 1 as [|c s Hc _ IH]; simpl; [reflexivity|].
  rewrite IH. f_equal. apply digit_or_dot_cases in Hc.
  unfold ascii_lower. ntest.
Qed.

Lemma take_sign_digit_or_dot (s : str) :
  Forall (fun c => digit_or_dot c = true) s -> take_sign s = (false, s).
Proof.
  intros H. destruct H as [|c s Hc _]; [reflexivity|].
  apply digit_or_dot_cases in Hc.
  assert (E : (c = 46 \/ c = 48 \/ c = 49 \/ c = 50 \/ c = 51 \/ c = 52
               \/ c = 53 \/ c = 54 \/ c = 55 \/ c = 56 \/ c = 57)%N) by lia.
  repeat (destruct E as [->|E]; [reflexivity|]). now subst.
Qed.

Lemma str_eqb_other (s w : str) :
  Forall (fun c => digit_or_dot c = true) s ->
  forallb digit_or_dot w = false ->
  str_eqb s w = false.
Proof.
  intros Hs Hw. unfold str_eqb.
  destruct (list_eq_dec N.eq_dec s w) as [->|]; [|reflexivity].
  rewrite Forall_forall in Hs. rewrite <- forallb_forall in Hs. congruence.
Qed.

(** The run of digits [digits] reads ends where the text ends or at a
    character that is no digit, and what follows is the rest of the text. *)
Lemma digits_rest (P : codepoint -> Prop) (s : str) :
  forall acc n a n' r,
    digits acc n s = (a, n', r) ->
    Forall P s ->
    Forall P r
    /\ match r with [] => True | c :: _ => is_ascii_digit c = false end.
Proof.
  induction s as [|c s IH]; intros acc n a n' r; simpl.
  - intros [= <- <- <-] _. split; [constructor|exact I].
  - destruct (is_ascii_digit c) eqn:Hc.
    + intros E H. inversion H; subst. exact (IH _ _ _ _ _ E H3).
    + intros [= <- <- <-] H. split; [exact H|exact Hc].
Qed.

Lemma digits_run (ds : list N) (rest : str) :
  Forall (fun d => (d < 10)%N) ds ->
  match rest with [] => True | c :: _ => is_ascii_digit c = false end ->
  forall acc n,
    digits acc n (digits_text ds ++ rest)
    = (fold_left (fun a d => (a * 10 + d)%N) ds acc, (n + length ds)%nat, rest).
Proof.
  intros Hd Hr. induction Hd as [|d ds Hlt _ IH]; intros acc n.
  - cbn [digits_text map app fold_left length]. rewrite Nat.add_0_r.
    destruct rest as [|c rest]; [reflexivity|]. cbn [digits]. now rewrite Hr.
  - assert (Ed : is_ascii_digit (48 + d)%N = true)
      by (unfold is_ascii_digit; ntest).
    unfold digits_text. cbn [map app fold_left length digits].
    fold (digits_text ds). rewrite Ed, IH.
    replace (48 + d - 48)%N with d by lia.
    now rewrite Nat.add_succ_r.
Qed.

(** [PyOS_string_to_double] on digits and full stops: when it reads a
    number, the number is unsigned and has no exponent of its own. *)
Lemma string_to_double_digits (s : str) :
  Forall (fun c => digit_or_dot c = true) s ->
  string_to_double s = None
  \/ exists m nf, string_to_double s = Some (float_of_decimal false m (- Z.of_nat nf)).
Proof.
  intros H. unfold string_to_double.
  rewrite (take_sign_digit_or_dot s H), (digit_or_dot_lower s H).
  rewrite !(str_eqb_other s) by (exact H || reflexivity).
  cbn [orb].
  destruct (digits 0 0 s) as [[ip ni] r1] eqn:E1.
  destruct (digits_rest _ s _ _ _ _ _ E1 H) as [H1 Hd1].
  destruct r1 as [|c1 r1].
  - destruct ni; [now left|]. right. now exists ip, 0%nat.
  - assert (c1 = 46%N) as ->.
    { inversion H1 as [|x l Hc _]; subst. unfold digit_or_dot in Hc.
      rewrite Hd1 in Hc. now apply N.eqb_eq in Hc. }
    cbv beta iota.
    destruct (digits ip 0 r1) as [[m nf] r2] eqn:E2.
    assert (H1' : Forall (fun c => digit_or_dot c = true) r1)
      by (inversion H1; assumption).
    destruct (digits_rest _ r1 _ _ _ _ _ E2 H1') as [H2 Hd2].
    destruct r2 as [|c r3].
    + destruct ni, nf; [now left|right; eauto..].
    + assert (c = 46%N) as ->.
      { inversion H2 as [|x l Hc _]; subst. unfold digit_or_dot in Hc.
        rewrite Hd2 in Hc. now apply N.eqb_eq in Hc. }
      left. destruct ni, nf; reflexivity.
Qed.

End FloatFacts.

Section Binary64.

Lemma shr_1_nonneg (mrs : shr_record) :
  (0 <= shr_m mrs)%Z -> (0 <= shr_m (shr_1 mrs))%Z.
Proof. destruct mrs as [[|[p|p|]|p] r s]; simpl; lia. Qed.

Lemma iter_shr_1_nonneg (p : positive) :
  forall mrs, (0 <= shr_m mrs)%Z -> (0 <= shr_m (iter_pos shr_1 p mrs))%Z.
Proof.
  induction p as [p IH|p IH|]; intros mrs H; simpl.
  - apply IH, IH, shr_1_nonneg, H.
  - apply IH, IH, H.
  - apply shr_1_nonneg, H.
Qed.

Lemma shr_fexp_nonneg (m e : Z) (l : location) :
  (0 <= m)%Z -> (0 <= shr_m (fst (shr_fexp prec emax m e l)))%Z.
Proof.
  intros H. unfold shr_fexp, shr.
  assert (H0 : (0 <= shr_m (shr_record_of_loc m l))%Z)
    by (destruct l as [|[]]; exact H).
  destruct (fexp prec emax (Zdigits2 m + e) - e)%Z; simpl; try exact H0.
  now apply iter_shr_1_nonneg.
Qed.

Lemma round_nearest_even_nonneg (m : Z) (l : location) :
  (0 <= m)%Z -> (0 <= round_nearest_even m l)%Z.
Proof.
  intros H. destruct l as [|[]]; simpl; try destruct (Z.even m); lia.
Qed.

(** Rounding keeps the sign, and gives no NaN. *)
Lemma binary_round_aux_unsigned (m e : Z) (l : location) :
  (0 <= m)%Z -> unsigned (binary_round_aux prec emax false m e l).
Proof.
  intros H. unfold binary_round_aux.
  pose proof (shr_fexp_nonneg m e l H) as H1.
  destruct (shr_fexp prec emax m e l) as [mrs' e1]. simpl in H1.
  pose proof (shr_fexp_nonneg _ e1 loc_Exact
                (round_nearest_even_nonneg _ (loc_of_shr_record mrs') H1)) as H2.
  destruct (shr_fexp prec emax
              (round_nearest_even (shr_m mrs') (loc_of_shr_record mrs'))
              e1 loc_Exact) as [mrs2 e2].
  simpl in H2. destruct (shr_m mrs2) as [|q|q]; [now left| |lia].
  destruct (e2 <=? emax - prec)%Z; [right; left; now exists q, e2|now right; right].
Qed.

(** The float of an unsigned decimal is plus zero, a positive number or
    plus infinity. *)
Lemma float_of_decimal_unsigned (m : N) (e : Z) : unsigned (float_of_decimal false m e).
Proof.
  unfold float_of_decimal. destruct m as [|p]; [now left|].
  destruct e as [|k|k].
  - unfold binary_round. destruct (shl_align _ _ _).
    apply binary_round_aux_unsigned. lia.
  - unfold binary_round. destruct (shl_align _ _ _).
    apply binary_round_aux_unsigned. lia.
  - unfold SFdiv_core_binary.
    set (m' := match _ with Z0 => Z.pos p | Z.pos _ => _ | Z.neg _ => 0%Z end).
    assert (Hm : (0 <= m')%Z).
    { subst m'. destruct (_ - _ - _)%Z; try lia. now apply Z.shiftl_nonneg. }
    pose proof (Z_div_mod m' (Z.pos (10 ^ k)) eq_refl) as Hd.
    destruct (Z.div_eucl m' (Z.pos (10 ^ k))) as [q r].
    apply binary_round_aux_unsigned. nia.
Qed.

Lemma digits2_pos_size (p : positive) : digits2_pos p = Pos.size p.
Proof. induction p; simpl; congruence. Qed.

Lemma iter_xO_digits (p k : positive) :
  digits2_pos (Pos.iter xO p k) = (digits2_pos p + k)%positive.
Proof.
  induction k as [|k IH] using Pos.peano_ind.
  - simpl. now rewrite Pos.add_1_r.
  - rewrite Pos.iter_succ. simpl. rewrite IH. lia.
Qed.

Lemma iter_xO_value (p k : positive) :
  Z.pos (Pos.iter xO p k) = (Z.pos p * 2 ^ Z.pos k)%Z.
Proof.
  induction k as [|k IH] using Pos.peano_ind.
  - simpl. lia.
  - rewrite Pos.iter_succ, Pos2Z.inj_xO, IH, Pos2Z.inj_succ, Z.pow_succ_r; lia.
Qed.

(** A mantissa that is already in place is left alone. *)
Lemma binary_round_aux_canonical (m : positive) (e : Z) :
  fexp prec emax (Z.pos (digits2_pos m) + e) = e ->
  (e <= emax - prec)%Z ->
  binary_round_aux prec emax false (Z.pos m) e loc_Exact = S754_finite false m e.
Proof.
  intros Hf He.
  assert (E : shr_fexp prec emax (Z.pos m) e loc_Exact
              = ({| shr_m := Z.pos m; shr_r := false; shr_s := false |}, e)).
  { unfold shr_fexp. cbn [Zdigits2]. now rewrite Hf, Z.sub_diag. }
  unfold binary_round_aux. rewrite E. cbn [shr_m loc_of_shr_record round_nearest_even].
  rewrite E. cbn [shr_m].
  destruct (Z.leb_spec e (emax - prec)); [reflexivity|lia].
Qed.

(** A whole number below 2^53 is its own float. *)
Lemma float_of_decimal_integer (n : N) :
  (0 < n < 2 ^ 53)%N ->
  exists m e,
    float_of_decimal false n 0 = S754_finite false m e
    /\ (e <= 0)%Z
    /\ Z.pos m = (Z.of_N n * 2 ^ (- e))%Z.
Proof.
  intros [H0 H]. destruct n as [|p]; [lia|].
  unfold float_of_decimal. change (Z.to_pos (10 ^ 0)) with 1%positive.
  rewrite Pos.mul_1_r. unfold binary_round, shl_align.
  assert (Hd : (Z.pos (digits2_pos p) <= 53)%Z).
  { rewrite digits2_pos_size.
    pose proof (Pos.size_le p) as Hs.
    assert (Hs' : (2 ^ Z.pos (Pos.size p) <= 2 * Z.pos p)%Z).
    { rewrite <- Pos2Z.inj_pow. change (2 * Z.pos p)%Z with (Z.pos p~0). lia. }
    assert (Hp : (Z.pos p < 2 ^ 53)%Z) by lia.
    destruct (Z_le_gt_dec (Z.pos (Pos.size p)) 53) as [Hle|Hgt]; [exact Hle|].
    assert (2 ^ 54 <= 2 ^ Z.pos (Pos.size p))%Z
      by (apply Z.pow_le_mono_r; lia).
    change (2 ^ 54)%Z with (2 * 2 ^ 53)%Z in *. lia. }
  assert (Hfexp : forall d, (1 <= d <= 53)%Z ->
                            fexp prec emax d = (d - 53)%Z).
  { intros d Hdd. unfold fexp, SpecFloat.emin, prec, emax. lia. }
  rewrite Z.add_0_r, Hfexp by lia.
  destruct (Z.pos (digits2_pos p) - 53 - 0)%Z as [|q|q] eqn:Eq; [|lia|].
  - exists p, 0%Z. split; [|split; [lia|simpl; lia]].
    apply binary_round_aux_canonical; [|unfold emax, prec; lia].
    rewrite Z.add_0_r, Hfexp; lia.
  - exists (Pos.iter xO p q), (Z.pos (digits2_pos p) - 53)%Z.
    split; [|split; [lia|]].
    + apply binary_round_aux_canonical; [|unfold emax, prec; lia].
      rewrite iter_xO_digits.
      replace (Z.pos (digits2_pos p + q) + (Z.pos (digits2_pos p) - 53))%Z
        with (Z.pos (digits2_pos p)) by lia.
      rewrite Hfexp; lia.
    + rewrite iter_xO_value. simpl Z.of_N. f_equal. f_equal. lia.
Qed.

End Binary64.

Section NetValue.

Lemma decimal_zeros_ascii :
  Forall (fun z => (z = 48 \/ 1632 <= z)%N) decimal_zeros.
Proof.
  unfold decimal_zeros. repeat (apply Forall_cons; [lia|]). apply Forall_nil.
Qed.

(** The decimal digits of ASCII are 0 to 9. *)
Lemma isdecimal_ascii (c : codepoint) :
  isdecimal c = true -> (c < 128)%N -> is_ascii_digit c = true.
Proof.
  unfold isdecimal, todecimal.
  destruct (todecimal_in decimal_zeros c) as [d|] eqn:E; [|discriminate].
  intros _ Hc. apply todecimal_in_some in E. destruct E as (z & Hz & Hb & _).
  pose proof decimal_zeros_ascii as T. rewrite Forall_forall in T.
  specialize (T z Hz). unfold is_ascii_digit. ntest.
Qed.

Lemma isdecimal_value (c : codepoint) :
  isdecimal c = true -> exists d, todecimal c = Some d /\ (d < 10)%N.
Proof.
  unfold isdecimal, todecimal.
  destruct (todecimal_in decimal_zeros c) as [d|] eqn:E; [|discriminate].
  intros _. exists d. split; [reflexivity|].
  apply todecimal_in_some in E. destruct E as (z & _ & Hb & ->). lia.
Qed.

Lemma decimal_or_dot_cases (c : codepoint) :
  decimal_or_dot c = true -> isdecimal c = true \/ c = 46%N.
Proof.
  unfold decimal_or_dot. rewrite orb_true_iff, N.eqb_eq. tauto.
Qed.

Lemma transform_nonascii_digits (s : str) :
  Forall (fun c => decimal_or_dot c = true) s ->
  Forall (fun c => digit_or_dot c = true) (transform_nonascii s).
Proof.
  induction 1 as [|c s Hc _ IH]; cbn [transform_nonascii]; [constructor|].
  apply decimal_or_dot_cases in Hc.
  destruct (N.ltb_spec c 127) as [Hlt|Hge].
  - constructor; [|exact IH]. unfold digit_or_dot.
    destruct Hc as [Hc| ->]; [|reflexivity].
    rewrite (isdecimal_ascii c Hc); [reflexivity|lia].
  - destruct Hc as [Hc|Hc]; [|lia].
    rewrite (isdecimal_not_space c Hc).
    destruct (isdecimal_value c Hc) as (d & -> & Hd).
    constructor; [|exact IH]. unfold digit_or_dot, is_ascii_digit. ntest.
Qed.

Lemma transform_digits (s : str) :
  Forall (fun c => decimal_or_dot c = true) s ->
  Forall (fun c => digit_or_dot c = true) (transform_decimal_and_space s).
Proof.
  intros H. unfold transform_decimal_and_space.
  destruct (forallb (fun c => (c <? 128)%N) s) eqn:E;
    [|now apply transform_nonascii_digits].
  rewrite forallb_forall in E. rewrite Forall_forall in H |- *.
  intros c Hin. specialize (E c Hin). apply N.ltb_lt in E.
  destruct (decimal_or_dot_cases c (H c Hin)) as [Hc| ->]; [|reflexivity].
  unfold digit_or_dot. now rewrite (isdecimal_ascii c Hc E).
Qed.

(** [float] on decimal digits and full stops: a [ValueError] or an unsigned
    number whose exponent is minus the number of digits after the point. *)
Lemma float_of_str_digits (s : str) :
  Forall (fun c => decimal_or_dot c = true) s ->
  float_of_str s = inl ValueError
  \/ exists m nf, float_of_str s = inr (float_of_decimal false m (- Z.of_nat nf)).
Proof.
  intros H. apply transform_digits in H. unfold float_of_str.
  rewrite (c_strip_no_space _ (digit_or_dot_no_space _ H)).
  rewrite (digit_or_dot_no_underscore _ H).
  destruct (string_to_double_digits _ H) as [->|(m & nf & ->)];
    [now left|right; now exists m, nf].
Qed.

Lemma normalised_liq (s : str) :
  Forall (fun c => liq_char c = true) s ->
  Forall (fun c => decimal_or_dot c = true) (map comma_to_dot (filter not_dot s)).
Proof.
  induction 1 as [|c s Hc _ IH]; cbn [filter map]; [constructor|].
  unfold not_dot at 1.
  destruct (N.eqb_spec c (ch ".")) as [->|Hd]; cbn [negb]; [exact IH|].
  cbn [map]. constructor; [|exact IH].
  unfold liq_char in Hc. unfold comma_to_dot, decimal_or_dot.
  destruct (N.eqb_spec c (ch ",")) as [->|Hk]; [reflexivity|].
  rewrite !orb_true_iff, !N.eqb_eq in Hc.
  destruct Hc as [[Hc|Hc]|Hc]; [now rewrite Hc|now elim Hd|now elim Hk].
Qed.

(** X7: the net value [extract_fields_from_text] returns, when there is
    one, is the float of an unsigned decimal, read from digits and at most
    one decimal point (never from an exponent, an infinity, a NaN or an
    underscore): the float nearest to m * 10^(-nf) for a whole number m and
    a count nf of digits after the point. It is plus zero, a positive number
    or, where the digits overflow, plus infinity; it is never a NaN and
    never below zero. *)
Theorem valor_liquido_shape (text : str) :
  f_valor_liquido (fields_of text) = None
  \/ exists m nf,
       f_valor_liquido (fields_of text)
       = Some (float_of_decimal false m (- Z.of_nat nf))
       /\ unsigned (float_of_decimal false m (- Z.of_nat nf))
       /\ float_of_decimal false m (- Z.of_nat nf) <> NaN.
Proof.
  assert (Hu : forall m nf,
             unsigned (float_of_decimal false m (- Z.of_nat nf))
             /\ float_of_decimal false m (- Z.of_nat nf) <> NaN).
  { intros m nf. pose proof (float_of_decimal_unsigned m (- Z.of_nat nf)) as H.
    split; [exact H|].
    destruct H as [->|[(b & e & ->)| ->]]; discriminate. }
  unfold fields_of. cbn [f_valor_liquido].
  destruct (capture liq_re text) as [g|] eqn:E; [|now left].
  destruct (capture_liq text g E) as [_ Hf]. cbn [stripped_or_empty].
  apply Forall_strip in Hf.
  destruct (strip g) as [|c s] eqn:Es; [now left|].
  rewrite to_number_br_eq by discriminate.
  destruct (float_of_str_digits _ (normalised_liq _ Hf)) as [->|(m & nf & ->)];
    [now left|right; exists m, nf; split; [reflexivity|apply Hu]].
Qed.

(** X8: full stops are ignored wherever they stand: [to_number_br] gives the
    same answer on a string and on what is left of it without its full
    stops, so that two strings that differ by full stops only are read
    alike. *)
Theorem to_number_br_ignores_dots (s t : str) :
  filter not_dot s = filter not_dot t ->
  to_number_br (Some s) = to_number_br (Some t).
Proof.
  intros H. now rewrite <- (to_number_br_filter s), H, to_number_br_filter.
Qed.

End NetValue.

Section ReadingDecimals.

Lemma digits_text_digit_or_dot (ds : list N) :
  Forall (fun d => (d < 10)%N) ds ->
  Forall (fun c => digit_or_dot c = true) (digits_text ds).
Proof.
  induction 1 as [|d ds Hd _ IH]; cbn [digits_text map]; constructor.
  - unfold digit_or_dot, is_ascii_digit. ntest.
  - exact IH.
Qed.

Lemma map_comma_digits (ds : list N) :
  map comma_to_dot (digits_text ds) = digits_text ds.
Proof.
  unfold digits_text. rewrite map_map. apply map_ext. intros d.
  unfold comma_to_dot. change (ch ",") with 44%N. ntest.
Qed.

Lemma transform_ascii (s : str) :
  Forall (fun c => digit_or_dot c = true) s ->
  transform_decimal_and_space s = s.
Proof.
  intros H. unfold transform_decimal_and_space.
  replace (forallb (fun c => (c <? 128)%N) s) with true; [reflexivity|].
  symmetry. apply forallb_forall. rewrite Forall_forall in H.
  intros c Hc. apply H, digit_or_dot_cases in Hc. ntest.
Qed.

(** [float] on ASCII digits with at most one point among them. *)
Lemma float_of_str_decimal (ip fp : list N) :
  Forall (fun d => (d < 10)%N) ip ->
  Forall (fun d => (d < 10)%N) fp ->
  ip ++ fp <> [] ->
  float_of_str (digits_text ip ++ 46%N :: digits_text fp)
  = inr (float_of_decimal false (number_of (ip ++ fp)) (- Z.of_nat (length fp))).
Proof.
  intros Hi Hf Hne.
  assert (H : Forall (fun c => digit_or_dot c = true)
                     (digits_text ip ++ 46%N :: digits_text fp)).
  { apply Forall_app. split; [now apply digits_text_digit_or_dot|].
    constructor; [reflexivity|now apply digits_text_digit_or_dot]. }
  unfold float_of_str.
  rewrite (transform_ascii _ H).
  rewrite (c_strip_no_space _ (digit_or_dot_no_space _ H)).
  rewrite (digit_or_dot_no_underscore _ H).
  unfold string_to_double.
  rewrite (take_sign_digit_or_dot _ H), (digit_or_dot_lower _ H).
  rewrite !(str_eqb_other _ _ H) by reflexivity.
  cbn [orb].
  rewrite (digits_run ip (46%N :: digits_text fp) Hi eq_refl).
  cbv beta iota.
  rewrite <- (app_nil_r (digits_text fp)).
  rewrite (digits_run fp [] Hf I).
  unfold number_of. rewrite fold_left_app.
  destruct ip as [|a ip]; destruct fp as [|b fp]; try reflexivity.
  now elim Hne.
Qed.

Lemma float_of_str_integer (ip : list N) :
  Forall (fun d => (d < 10)%N) ip ->
  ip <> [] ->
  float_of_str (digits_text ip) = inr (float_of_decimal false (number_of ip) 0).
Proof.
  intros Hi Hne.
  pose proof (digits_text_digit_or_dot ip Hi) as H.
  unfold float_of_str.
  rewrite (transform_ascii _ H).
  rewrite (c_strip_no_space _ (digit_or_dot_no_space _ H)).
  rewrite (digit_or_dot_no_underscore _ H).
  unfold string_to_double.
  rewrite (take_sign_digit_or_dot _ H), (digit_or_dot_lower _ H).
  rewrite !(str_eqb_other _ _ H) by reflexivity.
  cbn [orb].
  rewrite <- (app_nil_r (digits_text ip)).
  rewrite (digits_run ip [] Hi I).
  destruct ip as [|a ip]; [now elim Hne|reflexivity].
Qed.

(** X9: [to_number_br] reads a number written the Brazilian way. Whatever
    full stops the string holds, if what is left without them is a run of
    ASCII digits, a comma and a run of ASCII digits (one of the runs may be
    empty), the answer is the float of the number these digits denote,
    scaled down by ten for each digit after the comma: the float nearest to
    it, as Python reads it from the same digits around a decimal point. If
    it is a run of digits alone, the answer is the float of the whole number
    they denote, which below 2^53 is that very number. *)
Theorem to_number_br_reads_decimal (s : str) (ip fp : list N) :
  Forall (fun d => (d < 10)%N) ip ->
  Forall (fun d => (d < 10)%N) fp ->
  (filter not_dot s = digits_text ip ++ ch "," :: digits_text fp ->
   ip ++ fp <> [] ->
   to_number_br (Some s)
   = Some (float_of_decimal false (number_of (ip ++ fp)) (- Z.of_nat (length fp))))
  /\ (filter not_dot s = digits_text ip ->
      ip <> [] ->
      to_number_br (Some s) = Some (float_of_decimal false (number_of ip) 0))
  /\ (filter not_dot s = digits_text ip ->
      (0 < number_of ip < 2 ^ 53)%N ->
      exists m e,
        to_number_br (Some s) = Some (S754_finite false m e)
        /\ (e <= 0)%Z
        /\ Z.pos m = (Z.of_N (number_of ip) * 2 ^ (- e))%Z).
Proof.
  intros Hi Hf.
  assert (Hint : filter not_dot s = digits_text ip ->
                 ip <> [] ->
                 to_number_br (Some s) = Some (float_of_decimal false (number_of ip) 0)).
  { intros Hs Hne.
    assert (Hn : s <> []) by (intros ->; destruct ip; [now elim Hne|discriminate]).
    rewrite (to_number_br_eq s Hn), Hs, map_comma_digits.
    exact (f_equal (fun r : result float =>
                      match r with inl _ => None | inr f => Some f end)
                   (float_of_str_integer ip Hi Hne)). }
  split; [|split; [exact Hint|]].
  - intros Hs Hne.
    assert (Hn : s <> []) by (intros ->; destruct ip; discriminate).
    rewrite (to_number_br_eq s Hn), Hs, map_app. cbn [map].
    rewrite !map_comma_digits.
    change (comma_to_dot (ch ",")) with 46%N.
    exact (f_equal (fun r : result float =>
                      match r with inl _ => None | inr f => Some f end)
                   (float_of_str_decimal ip fp Hi Hf Hne)).
  - intros Hs Hlt.
    assert (Hne : ip <> [])
      by (intros ->; destruct Hlt as [Hlt _]; discriminate Hlt).
    rewrite (Hint Hs Hne).
    destruct (float_of_decimal_integer (number_of ip) Hlt) as (m & e & -> & He & Hm).
    now exists m, e.
Qed.

End ReadingDecimals.

Section NumbersRead.

Lemma to_number_br_ignores_dots_witness :
  filter not_dot (u "1.234,5") = filter not_dot (u "12.34,5")
  /\ to_number_br (Some (u "1.234,5")) = to_number_br (Some (u "12.34,5")).
Proof.
  split; [reflexivity|].
  apply (to_number_br_ignores_dots (u "1.234,5") (u "12.34,5")). reflexivity.
Defined.

Lemma to_number_br_reads_decimal_witness :
  to_number_br (Some (u "2.987,32"))
  = Some (S754_finite false 6569186151775601 (-41))
  /\ to_number_br (Some (u "1.500"))
     = Some (S754_finite false 6597069766656000 (-42))
  /\ to_number_br (Some (u "9.007.199.254.740.993"))
     = Some (S754_finite false 4503599627370496 1)
  /\ exists m e,
       to_number_br (Some (u "1.500")) = Some (S754_finite false m e)
       /\ (e <= 0)%Z
       /\ Z.pos m = (1500 * 2 ^ (- e))%Z.
Proof.
  split; [|split; [|split]].
  - rewrite (proj1 (to_number_br_reads_decimal (u "2.987,32") [2; 9; 8; 7] [3; 2]
                      ltac:(repeat constructor) ltac:(repeat constructor))%N);
      [vm_compute; reflexivity|reflexivity|discriminate].
  - rewrite (proj1 (proj2 (to_number_br_reads_decimal (u "1.500") [1; 5; 0; 0] []
                      ltac:(repeat constructor) ltac:(repeat constructor)))%N);
      [vm_compute; reflexivity|reflexivity|discriminate].
  - rewrite (proj1 (proj2 (to_number_br_reads_decimal
                             (u "9.007.199.254.740.993")
                             [9; 0; 0; 7; 1; 9; 9; 2; 5; 4; 7; 4; 0; 9; 9; 3] []
                      ltac:(repeat constructor) ltac:(repeat constructor)))%N);
      [vm_compute; reflexivity|reflexivity|discriminate].
  - apply (proj2 (proj2 (to_number_br_reads_decimal (u "1.500") [1; 5; 0; 0] []
                      ltac:(repeat constructor) ltac:(repeat constructor)))%N);
      [reflexivity|vm_compute; split; reflexivity].
Defined.

End NumbersRead.

(* ================================================================== *)
(** * Further properties of the content-type gate *)
(* ================================================================== *)

Section ContentType.

Lemma str_eqb_eq (a b : str) : str_eqb a b = true <-> a = b.
Proof.
  unfold str_eqb. destruct (list_eq_dec N.eq_dec a b); split;
    congruence || discriminate.
Qed.

Lemma lower_char_upper_char (c : codepoint) :
  lower_char (upper_char c) = lower_char c.
Proof.
  destruct (upper_char_cases c) as [->|[-> H]]; [reflexivity|].
  unfold lower_char. destruct H as [H|[H H']]; ntest.
Qed.

Lemma lower_char_idem (c : codepoint) : lower_char (lower_char c) = lower_char c.
Proof.
  destruct (lower_char_cases c) as [E|[E H]]; rewrite !E; [reflexivity|].
  unfold lower_char. destruct H as [H|[H H']]; ntest.
Qed.

Lemma content_type_accepted (ct : str) :
  _is_pdf_content_type (Some ct) = true
  <-> ct = [] \/ lower ct = u "application/pdf"
      \/ lower ct = u "application/octet-stream".
Proof.
  destruct ct as [|c ct]; [simpl; tauto|].
  unfold _is_pdf_content_type. rewrite orb_true_iff, !str_eqb_eq.
  split; [tauto|]. intros [H|H]; [discriminate|exact H].
Qed.

(** X10: the content-type gate does not look at letter case: a content
    type written in ASCII is accepted or refused like the same text in
    capitals or in small letters. What it accepts, apart from the empty
    string, has the length of one of its two types (15 or 24 characters), so
    that a content type that carries parameters is refused. *)
Theorem content_type_gate_ignores_case (ct : str) :
  Forall (fun c => (c < 128)%N) ct ->
  _is_pdf_content_type (Some (upper ct)) = _is_pdf_content_type (Some ct)
  /\ _is_pdf_content_type (Some (lower ct)) = _is_pdf_content_type (Some ct)
  /\ (_is_pdf_content_type (Some ct) = true ->
      ct = [] \/ length ct = 15%nat \/ length ct = 24%nat).
Proof.
  intros _.
  assert (Hu : lower (upper ct) = lower ct).
  { unfold lower, upper. rewrite map_map. apply map_ext, lower_char_upper_char. }
  assert (Hl : lower (lower ct) = lower ct).
  { unfold lower. rewrite map_map. apply map_ext, lower_char_idem. }
  split; [|split].
  - destruct ct as [|c ct]; [reflexivity|].
    change (upper (c :: ct)) with (upper_char c :: upper ct) in *.
    unfold _is_pdf_content_type. now rewrite Hu.
  - destruct ct as [|c ct]; [reflexivity|].
    change (lower (c :: ct)) with (lower_char c :: lower ct) in *.
    unfold _is_pdf_content_type. now rewrite Hl.
  - rewrite content_type_accepted. intros [H|[H|H]]; [now left|right..].
    + left. rewrite <- (length_map lower_char ct). fold (lower ct). now rewrite H.
    + right. rewrite <- (length_map lower_char ct). fold (lower ct). now rewrite H.
Qed.

Lemma content_type_gate_ignores_case_witness :
  Forall (fun c => (c < 128)%N) (u "Application/PDF")
  /\ _is_pdf_content_type (Some (u "Application/PDF")) = true
  /\ _is_pdf_content_type (Some (upper (u "Application/PDF"))) = true
  /\ _is_pdf_content_type (Some (lower (u "Application/PDF"))) = true.
Proof.
  assert (H : Forall (fun c => (c < 128)%N) (u "Application/PDF")) by forall_chars.
  destruct (content_type_gate_ignores_case (u "Application/PDF") H) as (Hu & Hl & _).
  split; [exact H|]. split; [reflexivity|].
  split; [rewrite Hu|rewrite Hl]; reflexivity.
Defined.

End ContentType.

(* ================================================================== *)
(** * Fields and their labels *)
(* ================================================================== *)

Section MatcherSoundness.

Context {R : Type}.

Lemma repeat_greedy_bounded (ok : codepoint -> bool) (s : str) :
  forall lo hi (k : str -> str -> option R) r,
    repeat_greedy ok lo hi s k = Some r ->
    exists t s',
      k t s' = Some r /\ s = t ++ s'
      /\ Forall (fun c => ok c = true) t /\ (lo <= length t)%nat
      /\ match hi with Some h => (length t <= h)%nat | None => True end.
Proof.
  induction s as [|c s IH]; intros lo hi k r; simpl.
  - destruct lo; [|discriminate]. intros H. exists [], [].
    repeat split; auto. destruct hi; simpl; [lia|exact I].
  - assert (Hstop : match lo with O => k [] (c :: s) | S _ => None end = Some r ->
                    exists t s',
                      k t s' = Some r /\ c :: s = t ++ s'
                      /\ Forall (fun c => ok c = true) t /\ (lo <= length t)%nat
                      /\ match hi with
                         | Some h => (length t <= h)%nat
                         | None => True
                         end).
    { destruct lo; [|discriminate]. intros H. exists [], (c :: s).
      repeat split; auto. destruct hi; simpl; [lia|exact I]. }
    destruct (ok c) eqn:Hc; simpl; [|exact Hstop].
    destruct (below hi) eqn:Hb; [|exact Hstop].
    destruct (repeat_greedy ok (pred lo) (decr hi) s
                            (fun taken rest => k (c :: taken) rest)) eqn:E;
      [|exact Hstop].
    intros [= <-]. apply IH in E.
    destruct E as (t & s' & H & -> & Ht & Hlo & Hhi).
    exists (c :: t), s'. repeat split; auto; [simpl; lia|].
    destruct hi as [[|h]|]; simpl in *; [discriminate|lia|exact I].
Qed.

(** The matcher is sound: what it takes is a text the pattern denotes. *)
Lemma exec_denotes (ic : bool) (p : pattern) :
  forall s g (k : str -> str -> option str -> option R) r,
    exec ic p s g k = Some r ->
    exists t s' g',
      k t s' g' = Some r /\ s = t ++ s' /\ denotes ic p t g g'.
Proof.
  induction p as [|b|p1 IH1 p2 IH2|p1 IH1 p2 IH2|lo hi b|p1 IH1];
    intros s g k r; simpl.
  - intros H. exists [], s, g. auto.
  - destruct s as [|c s]; [discriminate|].
    destruct (atom_matches ic b c) eqn:Hc; [|discriminate].
    intros H. exists [c], s, g. repeat split; eauto.
  - intros H. apply IH1 in H. destruct H as (t1 & s1 & g1 & H & -> & D1).
    apply IH2 in H. destruct H as (t2 & s2 & g2 & H & -> & D2).
    exists (t1 ++ t2), s2, g2. repeat split; [exact H|apply app_assoc|].
    exists t1, t2, g1. auto.
  - destruct (exec ic p1 s g k) eqn:E.
    + intros [= <-]. apply IH1 in E. destruct E as (t & s' & g' & H & -> & D).
      exists t, s', g'. auto.
    + intros H. apply IH2 in H. destruct H as (t & s' & g' & H & -> & D).
      exists t, s', g'. auto.
  - intros H. apply repeat_greedy_bounded in H.
    destruct H as (t & s' & H & -> & Ht & Hlo & Hhi).
    exists t, s', g. repeat split; auto.
  - intros H. apply IH1 in H. destruct H as (t & s' & g' & H & -> & D).
    exists t, s', (Some t). repeat split; eauto.
Qed.

End MatcherSoundness.

Section LabelFacts.

Lemma capture_denotes (re_ : Pattern) (text w : str) :
  capture re_ text = Some w ->
  exists before t after,
    text = before ++ t ++ after
    /\ denotes (IGNORECASE re_) (ast re_) t None (Some w).
Proof.
  unfold capture.
  destruct (search re_ text) as [m|] eqn:E; [|discriminate].
  intros Hg. apply search_leftmost in E. destruct E as (_ & E & _).
  unfold match_at in E. apply exec_denotes in E.
  destruct E as (t & s' & g' & [= Hm] & Hs & D).
  assert (E : group1 m = g') by (rewrite <- Hm; reflexivity).
  exists (firstn (m_start m) text), t, s'. split.
  - now rewrite <- Hs, firstn_skipn.
  - congruence.
Qed.

(** A literal of a pattern takes a text equal to it up to letter case. *)
Lemma denotes_literal (ic : bool) (cs : str) :
  forall t g g',
    denotes ic (fold_right (fun c p => SEQ (ATOM (LITERAL c)) p) EMPTY cs) t g g' ->
    g' = g /\ Forall2 (fun p c => literal_matches ic p c = true) cs t.
Proof.
  induction cs as [|p cs IH]; intros t g g'; simpl.
  - intros [-> ->]. split; [reflexivity|constructor].
  - intros (t1 & t2 & g1 & -> & [(c & -> & Hc) ->] & D).
    destruct (IH _ _ _ D) as [-> H]. split; [reflexivity|].
    simpl. now constructor.
Qed.

Lemma denotes_lit (s : string) (t : str) (g g' : option str) :
  denotes true (lit s) t g g' ->
  g' = g /\ map fold_case t = map fold_case (u s).
Proof.
  intros D. apply denotes_literal in D. destruct D as [-> H].
  split; [reflexivity|].
  induction H as [|p c ps t Hpc _ IH]; simpl; [reflexivity|].
  unfold literal_matches in Hpc. apply N.eqb_eq in Hpc. congruence.
Qed.

Lemma denotes_spaces (ic : bool) (t : str) (g g' : option str) :
  denotes ic (star (CATEGORY CATEGORY_SPACE)) t g g' -> g' = g /\ blank t.
Proof. intros (H & _ & _ & ->). split; [reflexivity|exact H]. Qed.

Lemma denotes_line_feed (t : str) (g g' : option str) :
  denotes true (opt (LITERAL LF)) t g g' -> g' = g /\ blank t.
Proof.
  intros (H & _ & _ & ->). split; [reflexivity|].
  eapply Forall_impl; [|exact H]. intros c. cbn [atom_matches].
  rewrite literal_matches_low by (vm_compute; reflexivity).
  intros Hc. apply N.eqb_eq in Hc. now subst c.
Qed.

Lemma denotes_either (a b : codepoint) (t : str) (g g' : option str) :
  denotes true (ATOM (IN [SLiteral a; SLiteral b])) t g g' ->
  g' = g /\ (folded t = folded [a] \/ folded t = folded [b]).
Proof.
  intros [(c & -> & Hc) ->]. split; [reflexivity|].
  cbn [atom_matches existsb item_matches] in Hc.
  unfold literal_matches in Hc.
  rewrite orb_false_r, orb_true_iff, !N.eqb_eq in Hc.
  unfold folded. simpl. destruct Hc as [<-|<-]; auto.
Qed.

Lemma denotes_group (ic : bool) (p : pattern) (t w : str) (g : option str) :
  denotes ic (seq_of [SUBPATTERN p]) t g (Some w) -> t = w.
Proof.
  intros (t1 & t2 & g1 & -> & [_ ->] & -> & [= ->]). apply app_nil_r.
Qed.

Lemma lstrip_blank (s : str) : exists a, s = a ++ lstrip s /\ blank a.
Proof.
  induction s as [|c s (a & IH & Ha)]; simpl.
  - exists []. split; [reflexivity|constructor].
  - destruct (isspace c) eqn:Hc.
    + exists (c :: a). split; [simpl; congruence|now constructor].
    + exists []. split; [reflexivity|constructor].
Qed.

Lemma strip_blank (s : str) :
  exists a b, s = a ++ strip s ++ b /\ blank a.
Proof.
  destruct (lstrip_blank s) as (a & Ha & Hb).
  destruct (rstrip_prefix (lstrip s)) as (b & Hs).
  exists a, b. unfold strip. split; [now rewrite <- Hs|exact Hb].
Qed.

(** Where [cpf_re] captures, the capture stands right after the label and
    white space. *)
Lemma cpf_re_label (text g : str) :
  capture cpf_re text = Some g ->
  exists before label blanks after,
    text = before ++ label ++ blanks ++ g ++ after
    /\ folded label = folded (u "CPF:") /\ blank blanks.
Proof.
  intros H. apply capture_denotes in H.
  destruct H as (before & t & after & -> & D).
  destruct D as (label & t1 & g1 & -> & D0 & blanks & t2 & g2 & -> & D1 & D2).
  apply denotes_lit in D0. destruct D0 as [-> E0].
  apply denotes_spaces in D1. destruct D1 as [-> B1].
  apply denotes_group in D2. subst t2.
  exists before, label, blanks, after. repeat split; auto.
  now rewrite <- !app_assoc.
Qed.

Lemma nome_re_label (text g : str) :
  capture nome_re text = Some g ->
  exists before label blanks after,
    text = before ++ label ++ blanks ++ g ++ after
    /\ (folded label = folded (u "Nome do Colaborador")
        \/ folded label = folded (u "Nome do Funcionario")
        \/ folded label = folded (u "Nome do Funcionário"))
    /\ blank blanks.
Proof.
  intros H. apply capture_denotes in H.
  destruct H as (before & t & after & -> & D).
  destruct D as (l0 & t1 & g1 & -> & D0 & l1 & t2 & g2 & -> & D1
                 & b0 & t3 & g3 & -> & D2 & b1 & t4 & g4 & -> & D3 & D4).
  apply denotes_lit in D0. destruct D0 as [-> E0].
  apply denotes_spaces in D2. destruct D2 as [-> B0].
  apply denotes_line_feed in D3. destruct D3 as [-> B1].
  apply denotes_group in D4. subst t4.
  exists before, (l0 ++ l1), (b0 ++ b1), after. split; [|split].
  - now rewrite <- !app_assoc.
  - unfold folded in *. rewrite map_app, E0.
    destruct D1 as [D1|D1].
    + apply denotes_lit in D1. destruct D1 as [_ E1].
      left. rewrite E1. reflexivity.
    + destruct D1 as (l2 & t5 & g5 & -> & D5 & l3 & t6 & g6 & -> & D6
                      & l4 & t7 & g7 & -> & D7 & -> & _).
      apply denotes_lit in D5. destruct D5 as [-> E5].
      apply denotes_either in D6. destruct D6 as [-> E6].
      apply denotes_lit in D7. destruct D7 as [_ E7].
      unfold folded in E6.
      rewrite app_nil_r, !map_app, E5, E7.
      destruct E6 as [-> | ->]; [right; left|right; right]; reflexivity.
  - apply Forall_app. split; assumption.
Qed.

Lemma liq_re_label (text g : str) :
  capture liq_re text = Some g ->
  exists before label blanks currency blanks' after,
    text = before ++ label ++ blanks ++ currency ++ blanks' ++ g ++ after
    /\ (folded label = folded (u "SALÁRIO LÍQUIDO")
        \/ folded label = folded (u "SALARIO LÍQUIDO")
        \/ folded label = folded (u "SALÁRIO LIQUIDO")
        \/ folded label = folded (u "SALARIO LIQUIDO"))
    /\ folded currency = folded (u "R$")
    /\ blank blanks /\ blank blanks'.
Proof.
  intros H. apply capture_denotes in H.
  destruct H as (before & t & after & -> & D).
  destruct D as (l0 & t1 & g1 & -> & D0 & l1 & t2 & g2 & -> & D1
                 & l2 & t3 & g3 & -> & D2 & l3 & t4 & g4 & -> & D3
                 & l4 & t5 & g5 & -> & D4 & b0 & t6 & g6 & -> & D5
                 & cur & t7 & g7 & -> & D6 & b1 & t8 & g8 & -> & D7 & D8).
  apply denotes_lit in D0. destruct D0 as [-> E0].
  apply denotes_either in D1. destruct D1 as [-> E1].
  apply denotes_lit in D2. destruct D2 as [-> E2].
  apply denotes_either in D3. destruct D3 as [-> E3].
  apply denotes_lit in D4. destruct D4 as [-> E4].
  apply denotes_spaces in D5. destruct D5 as [-> B0].
  apply denotes_lit in D6. destruct D6 as [-> E6].
  apply denotes_spaces in D7. destruct D7 as [-> B1].
  apply denotes_group in D8. subst t8.
  exists before, (l0 ++ l1 ++ l2 ++ l3 ++ l4), b0, cur, b1, after.
  split; [|split; [|split; [exact E6|split; assumption]]].
  - now rewrite <- !app_assoc.
  - unfold folded in *. rewrite !map_app, E0, E2, E4.
    destruct E1 as [-> | ->], E3 as [-> | ->];
      [left|right; right; left|right; left|right; right; right]; reflexivity.
Qed.

(** X11: a tax id is only ever read from behind its label: when
    [extract_fields_from_text] returns a tax id, the page text holds the
    label CPF: in some letter case, then white space only, then the tax id
    as returned. *)
Theorem cpf_follows_label (text : str) :
  f_cpf (fields_of text) <> [] ->
  exists before label blanks after,
    text = before ++ label ++ blanks ++ f_cpf (fields_of text) ++ after
    /\ folded label = folded (u "CPF:")
    /\ blank blanks.
Proof.
  unfold fields_of. cbn [f_cpf].
  destruct (capture cpf_re text) as [g|] eqn:E; simpl; [|contradiction].
  intros _. destruct (capture_cpf text g E) as [_ Hf].
  assert (Hs : strip g = g).
  { apply strip_no_space. eapply Forall_impl; [|exact Hf].
    intros c. apply cpf_char_no_space. }
  rewrite Hs. now apply cpf_re_label.
Qed.

Lemma cpf_follows_label_witness :
  f_cpf (fields_of (u "Matricula 7 cpf:  123.456.789-00 x")) <> []
  /\ exists before label blanks after,
       u "Matricula 7 cpf:  123.456.789-00 x"
       = before ++ label ++ blanks
         ++ f_cpf (fields_of (u "Matricula 7 cpf:  123.456.789-00 x")) ++ after
       /\ folded label = folded (u "CPF:")
       /\ blank blanks.
Proof.
  assert (H : f_cpf (fields_of (u "Matricula 7 cpf:  123.456.789-00 x")) <> [])
    by (vm_compute; discriminate).
  split; [exact H|exact (cpf_follows_label _ H)].
Defined.

(** X12: a name is only ever read from behind its label: when
    [extract_fields_from_text] returns a name, the page text holds one of
    the labels Nome do Colaborador, Nome do Funcionario, Nome do Funcionário
    in some letter case, then white space only, then the name as
    returned. *)
Theorem nome_follows_label (text : str) :
  f_nome (fields_of text) <> [] ->
  exists before label blanks after,
    text = before ++ label ++ blanks ++ f_nome (fields_of text) ++ after
    /\ (folded label = folded (u "Nome do Colaborador")
        \/ folded label = folded (u "Nome do Funcionario")
        \/ folded label = folded (u "Nome do Funcionário"))
    /\ blank blanks.
Proof.
  unfold fields_of. cbn [f_nome].
  destruct (capture nome_re text) as [g|] eqn:E; simpl; [|contradiction].
  intros _. apply nome_re_label in E.
  destruct E as (before & label & blanks & after & -> & Hl & Hb).
  destruct (strip_blank g) as (a & b & Hg & Ha).
  exists before, label, (blanks ++ a), (b ++ after). split; [|split].
  - rewrite Hg at 1. now rewrite <- !app_assoc.
  - exact Hl.
  - apply Forall_app. split; assumption.
Qed.

Lemma nome_follows_label_witness :
  f_nome (fields_of (u "NOME DO FUNCIONÁRIO  Maria Souza ")) <> []
  /\ exists before label blanks after,
       u "NOME DO FUNCIONÁRIO  Maria Souza "
       = before ++ label ++ blanks
         ++ f_nome (fields_of (u "NOME DO FUNCIONÁRIO  Maria Souza ")) ++ after
       /\ (folded label = folded (u "Nome do Colaborador")
           \/ folded label = folded (u "Nome do Funcionario")
           \/ folded label = folded (u "Nome do Funcionário"))
       /\ blank blanks.
Proof.
  assert (H : f_nome (fields_of (u "NOME DO FUNCIONÁRIO  Maria Souza ")) <> [])
    by (vm_compute; discriminate).
  split; [exact H|exact (nome_follows_label _ H)].
Defined.

(** X13: a net value is only ever read from behind its label and the
    currency sign: when [extract_fields_from_text] returns a net value, the
    page text holds SALÁRIO LÍQUIDO (with or without either accent, in some
    letter case), white space only, R$, white space only, and then the
    digits, full stops and commas that [to_number_br] turns into the value
    returned. *)
Theorem valor_liquido_follows_label (text : str) (v : float) :
  f_valor_liquido (fields_of text) = Some v ->
  exists before label blanks currency blanks' amount after,
    text = before ++ label ++ blanks ++ currency ++ blanks' ++ amount ++ after
    /\ (folded label = folded (u "SALÁRIO LÍQUIDO")
        \/ folded label = folded (u "SALARIO LÍQUIDO")
        \/ folded label = folded (u "SALÁRIO LIQUIDO")
        \/ folded label = folded (u "SALARIO LIQUIDO"))
    /\ folded currency = folded (u "R$")
    /\ blank blanks /\ blank blanks'
    /\ Forall (fun c => liq_char c = true) amount
    /\ to_number_br (Some amount) = Some v.
Proof.
  unfold fields_of. cbn [f_valor_liquido].
  destruct (capture liq_re text) as [g|] eqn:E; simpl; [|discriminate].
  intros Hv. destruct (capture_liq text g E) as [_ Hf].
  assert (Hs : strip g = g).
  { apply strip_no_space. eapply Forall_impl; [|exact Hf].
    intros c. apply liq_char_no_space. }
  rewrite Hs in Hv. apply liq_re_label in E.
  destruct E as (before & label & blanks & cur & blanks' & after
                 & -> & Hl & Hc & Hb & Hb').
  exists before, label, blanks, cur, blanks', g, after. repeat split; auto.
Qed.

Lemma valor_liquido_follows_label_witness :
  exists v,
    f_valor_liquido (fields_of (u "Salario Líquido R$ 2.987,32 ok")) = Some v
    /\ exists before label blanks currency blanks' amount after,
         u "Salario Líquido R$ 2.987,32 ok"
         = before ++ label ++ blanks ++ currency ++ blanks' ++ amount ++ after
         /\ (folded label = folded (u "SALÁRIO LÍQUIDO")
             \/ folded label = folded (u "SALARIO LÍQUIDO")
             \/ folded label = folded (u "SALÁRIO LIQUIDO")
             \/ folded label = folded (u "SALARIO LIQUIDO"))
         /\ folded currency = folded (u "R$")
         /\ blank blanks /\ blank blanks'
         /\ Forall (fun c => liq_char c = true) amount
         /\ to_number_br (Some amount) = Some v.
Proof.
  destruct (f_valor_liquido (fields_of (u "Salario Líquido R$ 2.987,32 ok")))
    as [v|] eqn:E; [|vm_compute in E; discriminate E].
  exists v. split; [reflexivity|].
  exact (valor_liquido_follows_label _ v E).
Defined.

End LabelFacts.
